(** * my-crm-app: the pipeline board and the account editor of [src/App.jsx]

    A shallow embedding of the data transformations and event handlers of
    the CRM front end, and the properties the specification states about
    them.

    - JavaScript values that reach the handlers are an inductive type
      [jsval]; objects used as records with computed keys (the form state,
      Firestore payloads) are [gmap string _], so that an object spread
      [{...o, k: v}] is an [insert].
    - Event handlers are written in a small state-and-exception monad [M]
      over one record [st] that holds the React state of the two components
      and the external world (the document store, the console, the reply
      of the generative endpoint).
    - The board's snapshot handler and its aggregates are pure functions
      over lists of [account] records. *)

From stdpp Require Import base option list gmap strings pretty sorting.
From Stdlib Require Import ZArith Lia Ascii.

Local Open Scope string_scope.
Local Open Scope list_scope.
Local Open Scope Z_scope.
Local Set Warnings "-register-all".

(** ** JavaScript numbers, strings and values *)

(** A JS number: [NaN], an infinity, or a finite binary64 value, written as
    the decimal [m * 10^e] that it equals (a binary64 value is a multiple
    of a power of 2, so it has a finite decimal expansion). The functions
    below return finite values in one form, [e = 0] for an integer and else
    the negative [e] nearest to 0. The sign of a zero is not kept: the code
    reads numbers through [||], [+], [Math.max] and comparisons, which do
    not tell [-0] from [0]. *)
Inductive num : Type :=
| NaN
| Infty (negative : bool)
| Dec (m e : Z).

(** Plain JS data: what [JSON.parse], the form inputs and the handlers'
    literals produce. A missing property ([undefined]) is a failed lookup. *)
Inductive jsval : Type :=
| VNull
| VBool (b : bool)
| VNum (n : num)
| VStr (s : string)
| VArr (l : list jsval)
| VObj (o : list (string * jsval)).

(** ToBoolean on numbers: [0] and [NaN] are falsy. *)
Definition num_truthy (n : num) : bool :=
  match n with
  | NaN => false
  | Infty _ => true
  | Dec m _ => negb (m =? 0)
  end.

(** ToBoolean. *)
Definition truthy (v : jsval) : bool :=
  match v with
  | VNull => false
  | VBool b => b
  | VNum n => num_truthy n
  | VStr s => negb (String.eqb s "")
  | VArr _ | VObj _ => true
  end.

(** ToBoolean of a property read, [undefined] when the key is absent. *)
Definition truthy_opt (v : option jsval) : bool :=
  match v with Some v => truthy v | None => false end.

(** [v === 'lit'] for a string literal. *)
Definition is_str (v : option jsval) (lit : string) : bool :=
  match v with Some (VStr s) => String.eqb s lit | _ => false end.

(** White space that [trim], [parseFloat] and [Number] skip; strings are
    byte strings here, so this is the ASCII part of WhiteSpace and
    LineTerminator (TAB, LF, VT, FF, CR, SP). *)
Definition is_ws (c : ascii) : bool :=
  let n := nat_of_ascii c in
  (Nat.leb 9 n && Nat.leb n 13) || Nat.eqb n 32.

Fixpoint trimStart (s : string) : string :=
  match s with
  | String c s' => if is_ws c then trimStart s' else s
  | EmptyString => EmptyString
  end.

Fixpoint trimEnd (s : string) : string :=
  match s with
  | String c s' =>
      let r := trimEnd s' in
      if is_ws c && String.eqb r "" then "" else String c r
  | EmptyString => EmptyString
  end.

(** [String.prototype.trim]. *)
Definition trim (s : string) : string := trimEnd (trimStart s).

(** Value of a digit in the given radix. *)
Definition digit_val (radix : Z) (c : ascii) : option Z :=
  let n := Z.of_nat (nat_of_ascii c) in
  let d :=
    if (48 <=? n) && (n <=? 57) then Some (n - 48)
    else if (97 <=? n) && (n <=? 102) then Some (n - 87)
    else if (65 <=? n) && (n <=? 70) then Some (n - 55)
    else None in
  match d with
  | Some d => if d <? radix then Some d else None
  | None => None
  end.

(** Reads the longest run of digits: accumulated value, number of digits
    read, and the rest of the input. *)
Fixpoint read_digits (radix : Z) (s : string) (acc : Z) (count : nat)
  : Z * nat * string :=
  match s with
  | String c s' =>
      match digit_val radix c with
      | Some d => read_digits radix s' (acc * radix + d) (S count)
      | None => (acc, count, s)
      end
  | EmptyString => (acc, count, s)
  end.

(** Drops [p] from the front of [s] when [s] starts with it. *)
Fixpoint strip_prefix (p s : string) : option string :=
  match p, s with
  | EmptyString, _ => Some s
  | String a p', String b s' =>
      if Ascii.eqb a b then strip_prefix p' s' else None
  | String _ _, EmptyString => None
  end.

(** An optional sign: [true] for a minus. *)
Definition read_sign (s : string) : bool * string :=
  match s with
  | String "-" s' => (true, s')
  | String "+" s' => (false, s')
  | _ => (false, s)
  end.

(** The exponent part [e[+-]digits] when it is complete, else nothing is
    consumed. *)
Definition read_exponent (s : string) : Z * string :=
  match s with
  | String c s' =>
      if Ascii.eqb c "e" || Ascii.eqb c "E" then
        let '(neg, s1) := read_sign s' in
        let '(x, k, s2) := read_digits 10 s1 0 0%nat in
        match k with
        | O => (0, s)
        | S _ => (if neg then - x else x, s2)
        end
      else (0, s)
  | EmptyString => (0, s)
  end.

(** Writes [m * 10^e] with the exponent raised towards 0 as far as the
    digits allow. *)
Fixpoint strip_zeros (fuel : nat) (m e : Z) : num :=
  match fuel with
  | O => Dec m e
  | S fuel' =>
      if (e <? 0) && (m mod 10 =? 0)
      then strip_zeros fuel' (m / 10) (e + 1)
      else Dec m e
  end.

(** The number [k * 2^sh]. *)
Definition dyadic (k sh : Z) : num :=
  if k =? 0 then Dec 0 0
  else if 0 <=? sh then Dec (k * 2 ^ sh) 0
  else strip_zeros (Z.to_nat (- sh)) (k * 5 ^ (- sh)) sh.

(** The binary64 value nearest to [n / d] for positive [n] and [d], with
    the sign [neg]: a significand of 53 bits at the exponent of the
    quotient, which is at least -1074; a tie goes to the even significand,
    and a result of [2^1024] or more is an infinity. *)
Definition round_ratio (neg : bool) (n d : Z) : num :=
  let ex := Z.log2 n - Z.log2 d in
  let lb :=
    if (if 0 <=? ex then d * 2 ^ ex <=? n else d <=? n * 2 ^ (- ex))
    then ex else ex - 1 in
  let sh := Z.max (lb - 52) (-1074) in
  let n' := if sh <? 0 then n * 2 ^ (- sh) else n in
  let d' := if sh <? 0 then d else d * 2 ^ sh in
  let k := n' / d' in
  let r := n' mod d' in
  let k' := if (d' <? 2 * r) || ((2 * r =? d') && Z.odd k) then k + 1 else k in
  if (0 <=? sh) && (2 ^ 1024 <=? k' * 2 ^ sh) then Infty neg
  else dyadic (if neg then - k' else k') sh.

(** The Number value of the decimal [m * 10^e]: the nearest binary64
    value. *)
Definition binary64 (m e : Z) : num :=
  if m =? 0 then Dec 0 0
  else if 0 <=? e then round_ratio (m <? 0) (Z.abs m * 10 ^ e) 1
  else round_ratio (m <? 0) (Z.abs m) (10 ^ (- e)).

(** The longest prefix of [s] that is a StrDecimalLiteral, with its value
    and the rest of the input. *)
Definition str_decimal_prefix (s : string) : option (num * string) :=
  let '(neg, s0) := read_sign s in
  match strip_prefix "Infinity" s0 with
  | Some rest => Some (Infty neg, rest)
  | None =>
      let '(ip, k1, s1) := read_digits 10 s0 0 0%nat in
      let '(mant, k2, s2) :=
        match s1 with
        | String "." s1' =>
            let '(m, k, r) := read_digits 10 s1' ip 0%nat in
            match k1, k with
            | O, O => (ip, 0%nat, s1)
            | _, _ => (m, k, r)
            end
        | _ => (ip, 0%nat, s1)
        end in
      match k1, k2 with
      | O, O => None
      | _, _ =>
          let '(x, s3) := read_exponent s2 in
          Some (binary64 (if neg then - mant else mant) (x - Z.of_nat k2), s3)
      end
  end.

(** [parseFloat(s)]. *)
Definition parseFloat (s : string) : num :=
  match str_decimal_prefix (trimStart s) with
  | Some (n, _) => n
  | None => NaN
  end.

(** A non-decimal integer literal [0x..], [0o..], [0b..], whole string. *)
Definition non_decimal_literal (s : string) : option num :=
  match s with
  | String "0" (String p s') =>
      let radix :=
        if Ascii.eqb p "x" || Ascii.eqb p "X" then Some 16
        else if Ascii.eqb p "o" || Ascii.eqb p "O" then Some 8
        else if Ascii.eqb p "b" || Ascii.eqb p "B" then Some 2
        else None in
      match radix with
      | Some r =>
          match read_digits r s' 0 0%nat with
          | (v, S _, EmptyString) => Some (binary64 v 0)
          | _ => Some NaN
          end
      | None => None
      end
  | _ => None
  end.

(** StringToNumber: [Number(s)] for a string. *)
Definition StringToNumber (s : string) : num :=
  let t := trim s in
  if String.eqb t "" then Dec 0 0
  else
    match non_decimal_literal t with
    | Some n => n
    | None =>
        match str_decimal_prefix t with
        | Some (n, EmptyString) => n
        | _ => NaN
        end
    end.

(** [Number(v)] where [v] sits inside an array that is converted through
    its string form ([join] writes [null] as the empty string). *)
Fixpoint ArrayElementToNumber (v : jsval) : num :=
  match v with
  | VNull => Dec 0 0
  | VBool _ => NaN
  | VNum n => n
  | VStr s => StringToNumber s
  | VArr [] => Dec 0 0
  | VArr [x] => ArrayElementToNumber x
  | VArr _ => NaN
  | VObj _ => NaN
  end.

(** ToNumber: [Number(v)], [undefined] when the key is absent. *)
Definition Number (v : option jsval) : num :=
  match v with
  | None => NaN
  | Some VNull => Dec 0 0
  | Some (VBool b) => Dec (if b then 1 else 0) 0
  | Some (VNum n) => n
  | Some (VStr s) => StringToNumber s
  | Some (VArr l) => ArrayElementToNumber (VArr l)
  | Some (VObj _) => NaN
  end.

(** [n || 0]. *)
Definition or_zero (n : num) : num := if num_truthy n then n else Dec 0 0.

(** [x + y] on numbers: the binary64 value nearest to the sum; opposite
    infinities give [NaN]. *)
Definition num_add (x y : num) : num :=
  match x, y with
  | NaN, _ | _, NaN => NaN
  | Infty a, Infty b => if Bool.eqb a b then Infty a else NaN
  | Infty a, Dec _ _ => Infty a
  | Dec _ _, Infty b => Infty b
  | Dec m1 e1, Dec m2 e2 =>
      let e := Z.min e1 e2 in
      binary64 (m1 * 10 ^ (e1 - e) + m2 * 10 ^ (e2 - e)) e
  end.

(** [x < y] on numbers; a comparison with [NaN] is false. *)
Definition num_ltb (x y : num) : bool :=
  match x, y with
  | NaN, _ | _, NaN => false
  | Infty a, Infty b => a && negb b
  | Infty a, Dec _ _ => a
  | Dec _ _, Infty b => negb b
  | Dec m1 e1, Dec m2 e2 =>
      let e := Z.min e1 e2 in
      m1 * 10 ^ (e1 - e) <? m2 * 10 ^ (e2 - e)
  end.

(** The number is an integer between 0 and 100. *)
Definition int_0_100 (n : num) : bool :=
  match n with
  | NaN | Infty _ => false
  | Dec m e =>
      if 0 <=? e then (0 <=? m * 10 ^ e) && (m * 10 ^ e <=? 100)
      else (m mod 10 ^ (- e) =? 0) && (0 <=? m) && (m / 10 ^ (- e) <=? 100)
  end.

(** ** The pipeline board: snapshot handler and aggregates *)

(** An account as the board reads it from a snapshot document
    ([{...doc.data(), id: doc.id}]): the fields the board's logic looks at.
    [nextFollowUpDate] is [None] for a null or absent field and otherwise
    the time value, in milliseconds, of the [Date] that the stored
    Timestamp's [toDate()] returns; [value] is the number stored under
    that name ([handleAddAccount] and [handleUpdateAccount] store a number
    there), [None] when the field is absent. *)
Record account : Type := {
  id : string;
  companyName : string;
  stage : string;
  value : option num;
  nextFollowUpDate : option Z;
}.

Record funnel_stage : Type := { name : string; color : string }.

Definition funnelStages : list funnel_stage := [
  {| name := "Business Intel"; color := "bg-stone-500" |};
  {| name := "New Leads"; color := "bg-indigo-500" |};
  {| name := "Qualified Opportunities"; color := "bg-blue-500" |};
  {| name := "Needs Analysis"; color := "bg-purple-500" |};
  {| name := "Proposal Sent"; color := "bg-yellow-500" |};
  {| name := "Negotiation"; color := "bg-orange-500" |};
  {| name := "Closed Won"; color := "bg-green-500" |};
  {| name := "Closed Lost"; color := "bg-red-500" |};
  {| name := "Nurturing"; color := "bg-gray-500" |}
].

(** [new Date(8640000000000000)], the largest time value of a [Date]. *)
Definition farFuture : Z := 8640000000000000.

(** [a.nextFollowUpDate?.toDate() || new Date(8640000000000000)]: a [Date]
    object is always truthy, so the sentinel is taken exactly when the field
    is null or absent. *)
Definition followUpDate (a : account) : Z :=
  match nextFollowUpDate a with
  | Some d => d
  | None => farFuture
  end.

(** The comparator of the sort: [dateA - dateB]. *)
Definition compareFollowUp (a b : account) : Z :=
  followUpDate a - followUpDate b.

(** [Array.prototype.sort] with a comparator: the sort is stable, and for a
    consistent comparator its result is the stable sorted arrangement, which
    insertion from the right computes ([x] goes before the first [y] with
    [cmp x y <= 0], so it stays before the equal elements that followed
    it). *)
Fixpoint sort_insert {A : Type} (cmp : A → A → Z) (x : A) (l : list A)
  : list A :=
  match l with
  | [] => [x]
  | y :: l' => if cmp x y <=? 0 then x :: l else y :: sort_insert cmp x l'
  end.

Definition sort {A : Type} (cmp : A → A → Z) (l : list A) : list A :=
  foldr (sort_insert cmp) [] l.

(** [o[k] = v] on an object with string keys: an existing key keeps its
    place, a new key goes last ([Object.values] follows this order). *)
Fixpoint obj_set {V : Type} (k : string) (v : V) (o : list (string * V))
  : list (string * V) :=
  match o with
  | [] => [(k, v)]
  | (k', v') :: o' =>
      if String.eqb k' k then (k', v) :: o' else (k', v') :: obj_set k v o'
  end.

(** [fetchedAccounts.filter(acc => acc.stage === stage.name).sort(...)]. *)
Definition sortedAccounts (fetchedAccounts : list account) (s : funnel_stage)
  : list account :=
  sort compareFollowUp (filter (λ acc, stage acc = name s) fetchedAccounts).

(** The snapshot handler: the value handed to [setAccounts]. *)
Definition organizedAccounts (fetchedAccounts : list account)
  : list (string * list account) :=
  foldl (λ organized s, obj_set (name s) (sortedAccounts fetchedAccounts s) organized)
        [] funnelStages.

(** [Object.values(accounts).flat()]. *)
Definition flat_values (accounts : list (string * list account))
  : list account :=
  concat (snd <$> accounts).

(** The stage test shared by the aggregates. *)
Definition active (acc : account) : Prop :=
  stage acc ≠ "Closed Won" ∧ stage acc ≠ "Closed Lost"
  ∧ stage acc ≠ "Business Intel".

#[global] Instance active_dec acc : Decision (active acc).
Proof. unfold active. apply _. Defined.

(** [x || 0] for a number that may be absent. *)
Definition or_zero_opt (x : option num) : num :=
  match x with Some n => or_zero n | None => Dec 0 0 end.

(** [totalPipelineValue]: filter, then [reduce] from 0 with
    [sum + (acc.value || 0)]. *)
Definition totalPipelineValue (accounts : list (string * list account))
  : num :=
  foldl (λ sum acc, num_add sum (or_zero_opt (value acc))) (Dec 0 0)
        (filter active (flat_values accounts)).


(** The specification's reading of the total: the accounts on the board
    are gone through bucket by bucket; an account in none of the three
    excluded stages adds its value, or 0 when it has none, to the sum, and
    the others leave the sum as it is. The additions are those of the
    numbers, in the order of the board. *)
Definition spec_counted (acc : account) : bool :=
  if decide (stage acc = "Closed Won") then false
  else if decide (stage acc = "Closed Lost") then false
  else if decide (stage acc = "Business Intel") then false
  else true.

Fixpoint spec_sum (sum : num) (l : list account) : num :=
  match l with
  | [] => sum
  | acc :: l' =>
      spec_sum (if spec_counted acc
                then num_add sum (match value acc with
                                  | Some v => or_zero v
                                  | None => Dec 0 0
                                  end)
                else sum) l'
  end.

Fixpoint spec_totalPipelineValue (sum : num)
  (accounts : list (string * list account)) : num :=
  match accounts with
  | [] => sum
  | (_, bucket) :: rest => spec_totalPipelineValue (spec_sum sum bucket) rest
  end.

(** The same reading in exact arithmetic, for values that are integers:
    the sum as an integer, and the sum of the magnitudes, which bounds
    every partial sum. *)
Definition int_value (acc : account) : option Z :=
  match value acc with
  | None => Some 0
  | Some (Dec v 0) => Some v
  | Some _ => None
  end.

Definition exact_contribution (acc : account) : Z :=
  if spec_counted acc then default 0 (int_value acc) else 0.

Fixpoint exact_sum (l : list account) : Z :=
  match l with
  | [] => 0
  | acc :: l' => exact_contribution acc + exact_sum l'
  end.

Fixpoint exact_totalPipelineValue (accounts : list (string * list account))
  : Z :=
  match accounts with
  | [] => 0
  | (_, bucket) :: rest => exact_sum bucket + exact_totalPipelineValue rest
  end.

Fixpoint magnitude_sum (l : list account) : Z :=
  match l with
  | [] => 0
  | acc :: l' => Z.abs (exact_contribution acc) + magnitude_sum l'
  end.

(** [Number.MAX_SAFE_INTEGER], [2^53 - 1]. *)
Definition MAX_SAFE_INTEGER : Z := 9007199254740991.

(** The values that count are integers, and their magnitudes add up to a
    safe integer. *)
Definition safe_integer_values (l : list account) : Prop :=
  Forall (λ acc, spec_counted acc = true → is_Some (int_value acc)) l
  ∧ magnitude_sum l ≤ MAX_SAFE_INTEGER.

(** ** The world outside the components *)

Inductive exn : Type :=
| ReferenceError (ident : string)
| TypeError (msg : string)
| SyntaxError
| FirebaseError.

(** A field value in a Firestore document: plain data or a Timestamp. *)
Inductive fsval : Type :=
| FData (v : jsval)
| FTimestamp (t : Z).

(** The write calls the handlers make on the store, in the order made. *)
Inductive store_op : Type :=
| AddDoc (coll : string) (data : gmap string fsval)
| UpdateDoc (coll docId : string) (data : gmap string fsval).

(** What a call of the generative endpoint meets: no API key configured, a
    [fetch] that throws, or a reply whose first candidate text is [text]
    ([None] when the optional chain ends in [undefined]). *)
Inductive gemini_env : Type :=
| NoApiKey
| FetchFails
| Responds (text : option string).

(** Console entries: [console.error] and [console.warn] calls of the code,
    and the report the host makes of a rejection that no handler caught. *)
Inductive log_entry : Type :=
| ConsoleError (msg : string)
| ConsoleWarn (msg : string)
| Uncaught (e : exn).

Record world : Type := {
  docs : gmap (string * string) (gmap string fsval);
  storeUp : bool;
  freshId : string;
  clock : Z;
  nowISO : string;
  gemini : gemini_env;
  console : list log_entry;
  writes : list store_op;
}.

(** React state and refs of [App]. *)
Record app_state : Type := {
  dbReady : bool;
  appId : string;
  user : option string;
  selectedAccount : option account;
  dragItem : option account;
  error : option string;
  showModal : bool;
}.

(** React state of [AccountForm]. *)
Record form_state : Type := {
  formData : gmap string jsval;
  newNote : string;
  loadingAI : bool;
  dictationStatus : string;
  isAddingAccount : bool;
}.

Record st : Type := { w : world; app : app_state; form : form_state }.

Definition with_docs (d : gmap (string * string) (gmap string fsval))
  (x : world) : world :=
  {| docs := d; storeUp := storeUp x; freshId := freshId x; clock := clock x;
     nowISO := nowISO x; gemini := gemini x; console := console x;
     writes := writes x |}.

Definition with_console (c : list log_entry) (x : world) : world :=
  {| docs := docs x; storeUp := storeUp x; freshId := freshId x;
     clock := clock x; nowISO := nowISO x; gemini := gemini x; console := c;
     writes := writes x |}.

Definition with_writes (ops : list store_op) (x : world) : world :=
  {| docs := docs x; storeUp := storeUp x; freshId := freshId x;
     clock := clock x; nowISO := nowISO x; gemini := gemini x;
     console := console x; writes := ops |}.

Definition with_selectedAccount (a : option account) (x : app_state)
  : app_state :=
  {| dbReady := dbReady x; appId := appId x; user := user x;
     selectedAccount := a; dragItem := dragItem x; error := error x;
     showModal := showModal x |}.

Definition with_dragItem (a : option account) (x : app_state) : app_state :=
  {| dbReady := dbReady x; appId := appId x; user := user x;
     selectedAccount := selectedAccount x; dragItem := a; error := error x;
     showModal := showModal x |}.

Definition with_error (e : option string) (x : app_state) : app_state :=
  {| dbReady := dbReady x; appId := appId x; user := user x;
     selectedAccount := selectedAccount x; dragItem := dragItem x; error := e;
     showModal := showModal x |}.

Definition with_showModal (b : bool) (x : app_state) : app_state :=
  {| dbReady := dbReady x; appId := appId x; user := user x;
     selectedAccount := selectedAccount x; dragItem := dragItem x;
     error := error x; showModal := b |}.

Definition with_formData (d : gmap string jsval) (x : form_state)
  : form_state :=
  {| formData := d; newNote := newNote x; loadingAI := loadingAI x;
     dictationStatus := dictationStatus x;
     isAddingAccount := isAddingAccount x |}.

Definition with_newNote (n : string) (x : form_state) : form_state :=
  {| formData := formData x; newNote := n; loadingAI := loadingAI x;
     dictationStatus := dictationStatus x;
     isAddingAccount := isAddingAccount x |}.

Definition with_loadingAI (b : bool) (x : form_state) : form_state :=
  {| formData := formData x; newNote := newNote x; loadingAI := b;
     dictationStatus := dictationStatus x;
     isAddingAccount := isAddingAccount x |}.

Definition with_dictationStatus (m : string) (x : form_state) : form_state :=
  {| formData := formData x; newNote := newNote x; loadingAI := loadingAI x;
     dictationStatus := m; isAddingAccount := isAddingAccount x |}.

Definition with_isAddingAccount (b : bool) (x : form_state) : form_state :=
  {| formData := formData x; newNote := newNote x; loadingAI := loadingAI x;
     dictationStatus := dictationStatus x; isAddingAccount := b |}.

Definition on_world (f : world → world) (s : st) : st :=
  {| w := f (w s); app := app s; form := form s |}.
Definition on_app (f : app_state → app_state) (s : st) : st :=
  {| w := w s; app := f (app s); form := form s |}.
Definition on_form (f : form_state → form_state) (s : st) : st :=
  {| w := w s; app := app s; form := f (form s) |}.

(** ** The handler monad: state and exceptions *)

Inductive outcome (A : Type) : Type :=
| Ok (a : A)
| Throw (e : exn).
Arguments Ok {A} a.
Arguments Throw {A} e.

Definition M (A : Type) : Type := st → outcome A * st.

#[global] Instance M_ret : MRet M := λ A a s, (Ok a, s).

#[global] Instance M_bind : MBind M := λ A B f m s,
  match m s with
  | (Ok a, s') => f a s'
  | (Throw e, s') => (Throw e, s')
  end.

Definition throw {A : Type} (e : exn) : M A := λ s, (Throw e, s).
Definition get : M st := λ s, (Ok s, s).
Definition modify (f : st → st) : M unit := λ s, (Ok tt, f s).

(** [try { body } catch (err) { handler }]. *)
Definition try_catch {A : Type} (body : M A) (handler : exn → M A) : M A :=
  λ s, match body s with
       | (Ok a, s') => (Ok a, s')
       | (Throw e, s') => handler e s'
       end.

(** [try { body } finally { fin }]. *)
Definition try_finally {A : Type} (body : M A) (fin : M unit) : M A :=
  λ s, match body s with
       | (r, s') =>
           match fin s' with
           | (Ok _, s'') => (r, s'')
           | (Throw e, s'') => (Throw e, s'')
           end
       end.

(** An async callback run by the host (a DOM event handler, the
    [FileReader]'s [onload]): nothing awaits its promise, so a rejection is
    reported by the host on the console and goes no further. *)
Definition host_async (h : M unit) : M unit :=
  try_catch h
    (λ e, modify (on_world (λ x, with_console (console x ++ [Uncaught e]) x))).

Definition console_error (msg : string) : M unit :=
  modify (on_world (λ x, with_console (console x ++ [ConsoleError msg]) x)).

Definition console_warn (msg : string) : M unit :=
  modify (on_world (λ x, with_console (console x ++ [ConsoleWarn msg]) x)).

Definition setError (msg : string) : M unit :=
  modify (on_app (with_error (Some msg))).
Definition setShowModal (b : bool) : M unit :=
  modify (on_app (with_showModal b)).
Definition setSelectedAccount (a : option account) : M unit :=
  modify (on_app (with_selectedAccount a)).
Definition setDragItem (a : option account) : M unit :=
  modify (on_app (with_dragItem a)).
Definition setFormData (f : gmap string jsval → gmap string jsval)
  : M unit :=
  modify (on_form (λ x, with_formData (f (formData x)) x)).
Definition setNewNote (n : string) : M unit :=
  modify (on_form (with_newNote n)).
Definition setLoadingAI (b : bool) : M unit :=
  modify (on_form (with_loadingAI b)).
Definition setDictationStatus (m : string) : M unit :=
  modify (on_form (with_dictationStatus m)).
Definition setIsAddingAccount (b : bool) : M unit :=
  modify (on_form (with_isAddingAccount b)).

(** ** The document store *)

(** [`artifacts/${appId}/users/${user.uid}/accounts`]. *)
Definition accountsPath (appId uid : string) : string :=
  "artifacts/" +:+ appId +:+ "/users/" +:+ uid +:+ "/accounts".

(** [doc(db, path, id)] and [collection(db, path)] reject a null [db]. *)
Definition doc (coll docId : string) : M (string * string) :=
  s ← get;
  if dbReady (app s) then mret (coll, docId) else throw FirebaseError.

Definition collection (coll : string) : M string :=
  s ← get;
  if dbReady (app s) then mret coll else throw FirebaseError.

Definition issue (op : store_op) : M unit :=
  modify (on_world (λ x, with_writes (writes x ++ [op]) x)).

(** [updateDoc(ref, data)]: the store merges the given fields into the
    existing document; the call rejects, leaving the store as it was, when
    the store is unreachable or the document does not exist. *)
Definition updateDoc (ref : string * string) (data : gmap string fsval)
  : M unit :=
  _ ← issue (UpdateDoc ref.1 ref.2 data);
  s ← get;
  match storeUp (w s), docs (w s) !! ref with
  | true, Some old =>
      modify (on_world (with_docs (<[ref := data ∪ old]> (docs (w s)))))
  | _, _ => throw FirebaseError
  end.

(** [addDoc(coll, data)]: the store stores the data under an identifier it
    assigns. *)
Definition addDoc (coll : string) (data : gmap string fsval) : M unit :=
  _ ← issue (AddDoc coll data);
  s ← get;
  if storeUp (w s)
  then modify (on_world
                 (with_docs (<[(coll, freshId (w s)) := data]> (docs (w s)))))
  else throw FirebaseError.

(** ** Handlers of [App] and [AccountForm] *)

Inductive input_type : Type :=
| TText | TNumber | TDate | TEmail | TTel | TTextarea.

Record control : Type := {
  cname : string;
  ctype : input_type;
  required : bool;
}.

Section Handlers.

(** Library and browser functions whose results the handlers only pass on:
    [Timestamp.fromDate(new Date(v))], the stored time value or [None] when
    the constructor rejects the date; [JSON.parse], [None] for a
    SyntaxError; the browser's type check of a typed input (badInput,
    typeMismatch); and, for each control by name, whether the text that the
    control held before the last render is empty. *)
Variable fromDate : jsval → option Z.
Variable JSON_parse : string → option jsval.
Variable typeMismatch : input_type → option jsval → bool.
Variable keptEmpty : string → bool.

(** [x ? Timestamp.fromDate(new Date(x)) : null]. *)
Definition dateField (x : option jsval) : M fsval :=
  match x with
  | Some v =>
      if truthy v then
        match fromDate v with
        | Some t => mret (FTimestamp t)
        | None => throw FirebaseError
        end
      else mret (FData VNull)
  | None => mret (FData VNull)
  end.

(** [Number(x) || 0] as a stored field. *)
Definition numberField (x : option jsval) : fsval :=
  FData (VNum (or_zero (Number x))).

Definition handleDragStart (item : account) : M unit :=
  setDragItem (Some item).

Definition handleDragEnd (stageName : string) : M unit :=
  s ← get;
  match dragItem (app s), user (app s) with
  | Some item, Some uid =>
      try_catch
        (docRef ← doc (accountsPath (appId (app s)) uid) (id item);
         _ ← updateDoc docRef {[ "stage" := FData (VStr stageName) ]};
         setDragItem None)
        (λ _, setError "Failed to update account stage.")
  | _, _ => mret tt
  end.

Definition handleAddAccount (newAccount : gmap string jsval) : M unit :=
  s ← get;
  match dbReady (app s), user (app s) with
  | true, Some uid =>
      try_catch
        (collectionRef ← collection (accountsPath (appId (app s)) uid);
         expectedCloseDate ← dateField (newAccount !! "expectedCloseDate");
         nextFollowUpDate ← dateField (newAccount !! "nextFollowUpDate");
         _ ← addDoc collectionRef
               (<["nextFollowUpDate" := nextFollowUpDate]>
               (<["expectedCloseDate" := expectedCloseDate]>
               (<["dealScore" := FData (VNum (Dec 50 0))]>
               (<["monthlyValue" := numberField (newAccount !! "monthlyValue")]>
               (<["value" := numberField (newAccount !! "value")]>
               (<["notes" := FData (VArr [])]>
               (<["createdAt" := FTimestamp (clock (w s))]>
               (<["stage" := FData (VStr "Business Intel")]>
               (FData <$> newAccount)))))))));
         _ ← setShowModal false;
         setSelectedAccount None)
        (λ _, setError "Failed to add new account.")
  | _, _ => mret tt
  end.

Definition handleUpdateAccount (updatedAccount : gmap string jsval)
  : M unit :=
  s ← get;
  match dbReady (app s), user (app s), selectedAccount (app s) with
  | true, Some uid, Some selected =>
      try_catch
        (docRef ← doc (accountsPath (appId (app s)) uid) (id selected);
         expectedCloseDate ← dateField (updatedAccount !! "expectedCloseDate");
         nextFollowUpDate ← dateField (updatedAccount !! "nextFollowUpDate");
         _ ← updateDoc docRef
               (<["nextFollowUpDate" := nextFollowUpDate]>
               (<["expectedCloseDate" := expectedCloseDate]>
               (<["monthlyValue" := numberField (updatedAccount !! "monthlyValue")]>
               (<["value" := numberField (updatedAccount !! "value")]>
               (FData <$> updatedAccount)))));
         _ ← setShowModal false;
         setSelectedAccount None)
        (λ _, setError "Failed to update account.")
  | _, _, _ => mret tt
  end.

(** [onSave={selectedAccount ? handleUpdateAccount : handleAddAccount}]. *)
Definition onSave (data : gmap string jsval) : M unit :=
  s ← get;
  match selectedAccount (app s) with
  | Some _ => handleUpdateAccount data
  | None => handleAddAccount data
  end.

(** [callGeminiAPI]: the text of the first candidate, or null. The prompt
    only travels to the endpoint, whose reply is part of the world. *)
Definition callGeminiAPI : M (option string) :=
  s ← get;
  match gemini (w s) with
  | NoApiKey =>
      _ ← console_error "Gemini API key is not configured.";
      _ ← setDictationStatus
            "API key not found. Please check environment variables.";
      mret None
  | FetchFails =>
      _ ← console_error "Error calling Gemini API:";
      mret None
  | Responds text => mret text
  end.

(** [data.notes.map(note => ({text: note.text, sentiment: note.sentiment}))]
    needs an array none of whose elements is null. *)
Definition notesForPrompt (notes : option jsval) : M unit :=
  match notes with
  | Some (VArr l) =>
      if forallb (λ note, match note with VNull => false | _ => true end) l
      then mret tt
      else throw (TypeError "Cannot read properties of null")
  | _ => throw (TypeError "data.notes.map is not a function")
  end.

Definition recalculateDealScore (data : gmap string jsval) : M num :=
  if is_str (data !! "stage") "Closed Won" then mret (Dec 100 0)
  else if is_str (data !! "stage") "Closed Lost" then mret (Dec 0 0)
  else
    _ ← notesForPrompt (data !! "notes");
    scoreText ← callGeminiAPI;
    match scoreText with
    | Some t => if String.eqb t "" then mret (Dec 50 0) else mret (parseFloat t)
    | None => mret (Dec 50 0)
    end.

Definition handleSave : M unit :=
  _ ← setIsAddingAccount true;
  s ← get;
  let formData := formData (form s) in
  let updatedFormData :=
    if is_str (formData !! "stage") "Business Intel"
       && negb (truthy_opt (formData !! "servicesNeeded"))
    then <["servicesNeeded" := VStr "N/A"]> formData
    else formData in
  try_finally
    (newDealScore ← recalculateDealScore updatedFormData;
     onSave (<["dealScore" := VNum newDealScore]> updatedFormData))
    (setIsAddingAccount false).

(** The string form of a value is empty: the empty string, and an array
    without elements or with one element that is null or has itself an
    empty string form ([join] writes null as the empty string). *)
Fixpoint renders_empty (v : jsval) : bool :=
  match v with
  | VNull => true
  | VStr s => String.eqb s ""
  | VArr [] => true
  | VArr [x] => renders_empty x
  | VArr _ => false
  | VBool _ | VNum _ | VObj _ => false
  end.

(** The control holds no text, for the [value] prop [v]. React writes the
    string form of a prop that is neither null nor undefined into the
    control; with a null or undefined prop it leaves the control as it is,
    so the control still holds the text it held before, which is empty or
    not as [keptEmpty] says. *)
Definition control_empty (keptEmpty : bool) (v : option jsval) : bool :=
  match v with
  | Some VNull | None => keptEmpty
  | Some v => renders_empty v
  end.

(** The controls the form renders with their [type] and [required]
    attributes; the [lostReason] textarea exists only while the stage is
    'Closed Lost'. *)
Definition rendered_controls (formData : gmap string jsval) : list control :=
  [ {| cname := "companyName"; ctype := TText; required := true |};
    {| cname := "servicesNeeded"; ctype := TText; required := true |};
    {| cname := "value"; ctype := TNumber; required := true |};
    {| cname := "monthlyValue"; ctype := TNumber; required := true |};
    {| cname := "expectedCloseDate"; ctype := TDate; required := false |};
    {| cname := "nextFollowUpDate"; ctype := TDate; required := false |};
    {| cname := "contactName"; ctype := TText; required := false |};
    {| cname := "contactTitle"; ctype := TText; required := false |};
    {| cname := "contactEmail"; ctype := TEmail; required := false |};
    {| cname := "contactPhone"; ctype := TTel; required := false |};
    {| cname := "industry"; ctype := TText; required := false |};
    {| cname := "leadSource"; ctype := TText; required := false |} ]
  ++ (if is_str (formData !! "stage") "Closed Lost"
      then [ {| cname := "lostReason"; ctype := TTextarea; required := true |} ]
      else []).

(** Constraint validation of one control. *)
Definition control_valid (formData : gmap string jsval) (c : control) : bool :=
  negb (required c
        && control_empty (keptEmpty (cname c)) (formData !! cname c))
  && negb (typeMismatch (ctype c) (formData !! cname c)).

(** A click on the submit button of [<form onSubmit={handleSave}>]: the
    button is disabled while a save runs; the browser validates the
    controls and fires the submit event only when all are valid. *)
Definition clickSubmit : M unit :=
  s ← get;
  if isAddingAccount (form s) then mret tt
  else if forallb (control_valid (formData (form s)))
                  (rendered_controls (formData (form s)))
  then host_async handleSave
  else mret tt.

(** Identifiers bound at module level: the imports and the three
    components. *)
Definition module_scope : list string :=
  [ "React"; "useState"; "useEffect"; "useRef"; "initializeApp"; "getAuth";
    "createUserWithEmailAndPassword"; "signInWithEmailAndPassword";
    "signOut"; "onAuthStateChanged"; "updateProfile"; "getFirestore";
    "collection"; "onSnapshot"; "doc"; "updateDoc"; "deleteDoc"; "addDoc";
    "query"; "where"; "Timestamp"; "marked";
    "App"; "AuthComponent"; "AccountForm" ].

(** Identifiers bound inside [App]. *)
Definition App_scope : list string :=
  module_scope ++
  [ "env"; "firebaseConfig"; "appId"; "db"; "setDb"; "auth"; "setAuth";
    "user"; "setUser"; "accounts"; "setAccounts"; "isLoading";
    "setIsLoading"; "error"; "setError"; "showModal"; "setShowModal";
    "selectedAccount"; "setSelectedAccount"; "dragItem"; "funnelStages";
    "handleDragStart"; "handleDragEnd"; "handleAddAccount";
    "handleUpdateAccount"; "handleDeleteAccount"; "totalPipelineValue";
    "numberOfActiveDeals"; "upcomingFollowups"; "getPipelineValues";
    "pipelineValues"; "maxPipelineValue"; "handleLogout" ].

(** Identifiers bound inside [AccountForm]: its props, its state and its
    functions. *)
Definition AccountForm_scope : list string :=
  module_scope ++
  [ "account"; "onSave"; "onClose"; "onDelete";
    "formData"; "setFormData"; "newNote"; "setNewNote"; "loadingAI";
    "setLoadingAI"; "showDeleteConfirm"; "setShowDeleteConfirm";
    "recognitionRef"; "noteRecognitionRef"; "isDictatingNotes";
    "setIsDictatingNotes"; "isNoteProcessing"; "setIsNoteProcessing";
    "dictationStatus"; "setDictationStatus"; "liveTranscript";
    "setLiveTranscript"; "emailDraft"; "setEmailDraft"; "agenda";
    "setAgenda"; "isAddingAccount"; "setIsAddingAccount"; "callGeminiAPI";
    "recalculateDealScore"; "handleDraftEmail"; "handleGenerateAgenda";
    "handleScanBusinessCard"; "handleDictate"; "handleStopDictate";
    "handleNoteDictate"; "handleStopNoteDictate"; "handleEditNote";
    "handleChange"; "handleAddNote"; "handleSave" ].

(** Reading an identifier: a name bound neither in the enclosing functions
    nor at module level (nor a property of the global object, which has no
    [db], [appId] or [user]) throws a ReferenceError. *)
Definition resolve (scope : list string) (ident : string) : M unit :=
  if decide (ident ∈ scope) then mret tt else throw (ReferenceError ident).

(** The elements of [[...v]]. *)
Definition spread_iterable (v : option jsval) : M (list jsval) :=
  match v with
  | Some (VArr l) => mret l
  | Some (VStr s) => mret ((λ c, VStr (String c "")) <$> String.list_ascii_of_string s)
  | _ => throw (TypeError "formData.notes is not iterable")
  end.

(** [handleAddNote]. The [account] prop is [selectedAccount] of [App]
    ([account={selectedAccount}]). After the three identifier reads the
    body continues as it would with the bindings of [App]. *)
Definition handleAddNote : M unit :=
  s ← get;
  match selectedAccount (app s) with
  | Some account =>
      if String.eqb (trim (newNote (form s))) "" then mret tt
      else
        notes ← spread_iterable (formData (form s) !! "notes");
        let updatedNotes :=
          notes ++ [VObj [("text", VStr (newNote (form s)));
                          ("timestamp", VStr (nowISO (w s)))]] in
        _ ← resolve AccountForm_scope "db";
        _ ← resolve AccountForm_scope "appId";
        _ ← resolve AccountForm_scope "user";
        match user (app s) with
        | Some uid =>
            docRef ← doc (accountsPath (appId (app s)) uid) (id account);
            _ ← updateDoc docRef {[ "notes" := FData (VArr updatedNotes) ]};
            _ ← setFormData (λ prev, <["notes" := VArr updatedNotes]> prev);
            setNewNote ""
        | None => throw (TypeError "Cannot read properties of null")
        end
  | None => mret tt
  end.

Definition LF : ascii := "010"%char.

(** The two alternatives of the pattern, an opening fence with its line
    break and a line break with a closing fence. *)
Definition fence_open : string := "```json" +:+ String LF "".
Definition fence_close : string := String LF "```".

(** [jsonText.replace(/```json\n|\n```/g, '')]: from left to right, every
    match of the first alternative, else of the second, is dropped; [skip]
    counts the characters of a match still to drop. *)
Fixpoint remove_fences (skip : nat) (s : string) : string :=
  match s with
  | EmptyString => EmptyString
  | String c s' =>
      match skip with
      | S k => remove_fences k s'
      | O =>
          match strip_prefix fence_open s, strip_prefix fence_close s with
          | Some _, _ => remove_fences 7 s'
          | None, Some _ => remove_fences 3 s'
          | None, None => String c (remove_fences 0 s')
          end
      end
  end.

(** The own enumerable properties that [{...v}] copies. *)
Definition spread_entries (v : jsval) : list (string * jsval) :=
  match v with
  | VObj o => o
  | VArr l => imap (λ i x, (pretty i, x)) l
  | VStr s =>
      imap (λ i c, (pretty i, VStr (String c "")))
           (String.list_ascii_of_string s)
  | VNull | VBool _ | VNum _ => []
  end.

(** [{...target, ...v}]: later properties replace earlier ones. *)
Definition spread_into (v : jsval) (target : gmap string jsval)
  : gmap string jsval :=
  foldl (λ m kv, <[kv.1 := kv.2]> m) target (spread_entries v).

(** [v.k] for one of the contact keys: reading a property of null throws;
    strings, arrays, numbers and booleans have no such property. *)
Definition get_prop (v : jsval) (k : string) : M (option jsval) :=
  match v with
  | VNull => throw (TypeError "Cannot read properties of null")
  | VObj o =>
      mret (foldl (λ found kv, if String.eqb kv.1 k then Some kv.2 else found)
                  None o)
  | VBool _ | VNum _ | VStr _ | VArr _ => mret None
  end.

(** [x || '']. *)
Definition or_empty (x : option jsval) : jsval :=
  match x with
  | Some v => if truthy v then v else VStr ""
  | None => VStr ""
  end.

(** The [onload] callback of the [FileReader]. *)
Definition reader_onload : M unit :=
  jsonText ← callGeminiAPI;
  _ ← match jsonText with
      | Some t =>
          if String.eqb t ""
          then console_error "AI extraction failed: No text in response."
          else
            match JSON_parse (remove_fences 0 t) with
            | Some parsedData =>
                contactName ← get_prop parsedData "contactName";
                contactEmail ← get_prop parsedData "contactEmail";
                contactPhone ← get_prop parsedData "contactPhone";
                contactTitle ← get_prop parsedData "contactTitle";
                companyName ← get_prop parsedData "companyName";
                setFormData (λ prev,
                  <["companyName" := or_empty companyName]>
                  (<["contactTitle" := or_empty contactTitle]>
                  (<["contactPhone" := or_empty contactPhone]>
                  (<["contactEmail" := or_empty contactEmail]>
                  (<["contactName" := or_empty contactName]>
                  (spread_into parsedData prev))))))
            | None => throw SyntaxError
            end
      | None => console_error "AI extraction failed: No text in response."
      end;
  _ ← setLoadingAI false;
  setDictationStatus "".

(** [handleScanBusinessCard]: [file] is [e.target.files[0]]; the reader
    then calls [onload]. *)
Definition handleScanBusinessCard (file : option string) : M unit :=
  match file with
  | None => mret tt
  | Some _ =>
      _ ← setLoadingAI true;
      _ ← setDictationStatus "Scanning card...";
      host_async reader_onload
  end.

End Handlers.

(** What a run of a handler leaves behind. *)
Definition final {A : Type} (m : M A) (s : st) : st := (m s).2.
Definition result {A : Type} (m : M A) (s : st) : outcome A := (m s).1.

(** The payload of a write call. *)
Definition payload (op : store_op) : gmap string fsval :=
  match op with
  | AddDoc _ data => data
  | UpdateDoc _ _ data => data
  end.

(** ** Predicates of the statements *)

(** The names of the nine funnel stages. *)
Definition stageNames : list string := name <$> funnelStages.

(** Accounts that a snapshot can deliver through Firestore: a stored
    Timestamp lies before the year 10000, so its time value is below the
    sentinel. *)
Definition followUpInRange (acc : account) : Prop :=
  match nextFollowUpDate acc with
  | Some d => d < farFuture
  | None => True
  end.

(** The date value converts: it is falsy (stored as null) or a date the
    Timestamp constructor accepts. *)
Definition dateConvertible (fromDate : jsval → option Z) (x : option jsval)
  : Prop :=
  match x with
  | Some v => truthy v = true → is_Some (fromDate v)
  | None => True
  end.

(** A document, or a payload, carries the dealScore [n]. *)
Definition has_score (n : num) (d : gmap string fsval) : Prop :=
  d !! "dealScore" = Some (FData (VNum n)).

(** A document, or a payload, carries a dealScore that is an integer
    between 0 and 100. *)
Definition score_in_range (d : gmap string fsval) : Prop :=
  ∃ n, has_score n d ∧ int_0_100 n = true.

(** The endpoint's text, when there is one, is read by [parseFloat] as an
    integer between 0 and 100. *)
Definition reply_in_range (g : gemini_env) : Prop :=
  match g with
  | Responds (Some t) => t ≠ "" → int_0_100 (parseFloat t) = true
  | Responds None | NoApiKey | FetchFails => True
  end.

(** What a run from [s] to [s'] did to the store: the writes it issued and
    the documents it changed all satisfy [Q]. *)
Definition store_effect (Q : gmap string fsval → Prop) (s s' : st) : Prop :=
  (∃ new, writes (w s') = writes (w s) ++ new
          ∧ Forall (λ op, Q (payload op)) new)
  ∧ ∀ ref d, docs (w s') !! ref = Some d →
             docs (w s) !! ref = Some d ∨ Q d.

(** ** Sample data *)

Definition lead_acme : account :=
  {| id := "a1"; companyName := "Acme"; stage := "New Leads";
     value := Some (Dec 1000 0); nextFollowUpDate := Some 1767225600000 |}.
Definition lead_globex : account :=
  {| id := "a2"; companyName := "Globex"; stage := "New Leads";
     value := None; nextFollowUpDate := None |}.
Definition lead_initech : account :=
  {| id := "a3"; companyName := "Initech"; stage := "New Leads";
     value := Some (Dec 250 0); nextFollowUpDate := Some 1764547200000 |}.
Definition lead_hooli : account :=
  {| id := "a4"; companyName := "Hooli"; stage := "Closed Won";
     value := Some (Dec 9000 0); nextFollowUpDate := None |}.
Definition lead_archived : account :=
  {| id := "a5"; companyName := "Umbrella"; stage := "Archived";
     value := Some (Dec 40 0); nextFollowUpDate := None |}.

Definition snapshot1 : list account :=
  [lead_globex; lead_acme; lead_hooli; lead_initech].

(** Two accounts whose values add up to [2^53 + 1], which is no binary64
    value. *)
Definition lead_big : account :=
  {| id := "b1"; companyName := "Big"; stage := "New Leads";
     value := Some (Dec 9007199254740992 0); nextFollowUpDate := None |}.
Definition lead_one : account :=
  {| id := "b2"; companyName := "One"; stage := "New Leads";
     value := Some (Dec 1 0); nextFollowUpDate := None |}.

Definition lead_stark : account :=
  {| id := "a6"; companyName := "Stark"; stage := "Negotiation";
     value := Some (Dec 5000 0); nextFollowUpDate := None |}.

Definition demo_path : string := "artifacts/crm-demo/users/u1/accounts".

Definition acme_doc : gmap string fsval :=
  list_to_map
    [ ("companyName", FData (VStr "Acme"));
      ("stage", FData (VStr "New Leads"));
      ("value", FData (VNum (Dec 1000 0)));
      ("dealScore", FData (VNum (Dec 50 0)));
      ("notes", FData (VArr [])) ].

Definition stark_doc : gmap string fsval :=
  list_to_map
    [ ("companyName", FData (VStr "Stark"));
      ("stage", FData (VStr "Negotiation"));
      ("value", FData (VNum (Dec 5000 0)));
      ("dealScore", FData (VNum (Dec 50 0)));
      ("notes", FData (VArr [])) ].

(** A reachable store with two accounts, and an endpoint that meets the
    call as [g] says. *)
Definition demo_world (g : gemini_env) : world :=
  {| docs := {[ (demo_path, "a1") := acme_doc; (demo_path, "a6") := stark_doc ]};
     storeUp := true; freshId := "a7"; clock := 1767225600000;
     nowISO := "2026-01-01T00:00:00.000Z"; gemini := g;
     console := []; writes := [] |}.

Definition demo_app (selected dragged : option account) : app_state :=
  {| dbReady := true; appId := "crm-demo"; user := Some "u1";
     selectedAccount := selected; dragItem := dragged; error := None;
     showModal := true |}.

Definition demo_form (data : gmap string jsval) (note : string)
  : form_state :=
  {| formData := data; newNote := note; loadingAI := false;
     dictationStatus := ""; isAddingAccount := false |}.

(** The form of the editor opened on Stark, in 'Negotiation'. *)
Definition stark_formData : gmap string jsval :=
  list_to_map
    [ ("companyName", VStr "Stark"); ("servicesNeeded", VStr "Chatbot");
      ("value", VNum (Dec 5000 0)); ("monthlyValue", VStr "300");
      ("expectedCloseDate", VStr ""); ("nextFollowUpDate", VStr "");
      ("stage", VStr "Negotiation"); ("notes", VArr []);
      ("lostReason", VStr ""); ("dealScore", VNum (Dec 50 0)) ].

(** The form of the editor opened for a new account. *)
Definition acme_formData : gmap string jsval :=
  list_to_map
    [ ("companyName", VStr "Acme"); ("value", VStr "1000");
      ("monthlyValue", VStr "100") ].

(** A new account whose form has no amounts (an empty value, no
    monthlyValue) and carries a stage, a dealScore and notes of its own. *)
Definition pushy_formData : gmap string jsval :=
  list_to_map
    [ ("companyName", VStr "Pushy"); ("value", VStr "");
      ("stage", VStr "Closed Won"); ("dealScore", VNum (Dec 99 0));
      ("notes", VArr [VStr "ours"]) ].

Definition editing_stark (reply : string) : st :=
  {| w := demo_world (Responds (Some reply));
     app := demo_app (Some lead_stark) None;
     form := demo_form stark_formData "Called the client" |}.

Definition editing_lost : st :=
  {| w := demo_world FetchFails; app := demo_app (Some lead_stark) None;
     form := demo_form (<["stage" := VStr "Closed Lost"]> stark_formData) "" |}.

(** The same editor after a reply of the endpoint that carries
    [lostReason: null] was merged into the form. *)
Definition editing_lost_null : st :=
  {| w := demo_world FetchFails; app := demo_app (Some lead_stark) None;
     form := demo_form (<["lostReason" := VNull]>
                        (<["stage" := VStr "Closed Lost"]> stark_formData))
                       "" |}.

Definition editing_won : st :=
  {| w := demo_world FetchFails; app := demo_app (Some lead_stark) None;
     form := demo_form (<["stage" := VStr "Closed Won"]> stark_formData) "" |}.

Definition adding_acme : st :=
  {| w := demo_world FetchFails; app := demo_app None None;
     form := demo_form acme_formData "" |}.

Definition adding_pushy : st :=
  {| w := demo_world FetchFails; app := demo_app None None;
     form := demo_form pushy_formData "" |}.

Definition dragging_acme : st :=
  {| w := demo_world FetchFails; app := demo_app None (Some lead_acme);
     form := demo_form ∅ "" |}.

(** Stand-ins for the library functions where an example needs concrete
    ones: a date conversion that knows one date, a parser that accepts the
    three JSON literal names, and a browser that finds no type mismatch. *)
Definition fromDate_demo (v : jsval) : option Z :=
  match v with
  | VStr s => if String.eqb s "2026-01-01" then Some 1767225600000 else None
  | _ => None
  end.

Definition JSON_parse_demo (text : string) : option jsval :=
  if String.eqb text "null" then Some VNull
  else if String.eqb text "true" then Some (VBool true)
  else if String.eqb text "false" then Some (VBool false)
  else None.

Definition typeMismatch_demo (t : input_type) (v : option jsval) : bool :=
  false.

(** Controls of which only the [lostReason] textarea held text before the
    last render (a reason typed earlier). *)
Definition kept_reason_typed (c : string) : bool :=
  negb (String.eqb c "lostReason").

(** Controls that held no text before the last render. *)
Definition kept_blank (c : string) : bool := true.

Definition scanning_card (reply : string) : st :=
  {| w := demo_world (Responds (Some reply));
     app := demo_app None None;
     form := demo_form acme_formData "" |}.

(** The double quote, as a one-character string. *)
Definition DQUOTE : string := String "034"%char "".

(** A reply of the endpoint, an object with a company name and a stage, and
    a stand-in parser that knows this one reply. *)

Definition card_reply : string :=
  "{" +:+ DQUOTE +:+ "companyName" +:+ DQUOTE +:+ ": "
      +:+ DQUOTE +:+ "Umbrella" +:+ DQUOTE +:+ ", "
      +:+ DQUOTE +:+ "stage" +:+ DQUOTE +:+ ": "
      +:+ DQUOTE +:+ "Archived" +:+ DQUOTE +:+ "}".

Definition JSON_parse_card (text : string) : option jsval :=
  if String.eqb text card_reply
  then Some (VObj [("companyName", VStr "Umbrella");
                   ("stage", VStr "Archived")])
  else None.

(** ** Further code of [App]: the other aggregates of the board *)

(** [1000 * 3600 * 24]. *)
Definition msPerDay : Z := 1000 * 3600 * 24.

(** [Math.ceil(timeDiff / (1000 * 3600 * 24))] for the time values of
    [followUpDate] and [today]. The quotient is a double in the code; its
    ceiling is compared with 0 and 7 only, where the double's ceiling is
    the exact one, and [-0 >= 0] holds, so the exact ceiling is taken. *)
Definition dayDiff (today followUp : Z) : Z :=
  - ((- (followUp - today)) / msPerDay).

(** The test of the [upcomingFollowups] filter; [today] is the clock read
    by [new Date()]. *)
Definition isUpcoming (today : Z) (acc : account) : bool :=
  match nextFollowUpDate acc with
  | None => false
  | Some d => (0 <=? dayDiff today d) && (dayDiff today d <=? 7)
  end.

Definition upcomingFollowups (today : Z)
  (accounts : list (string * list account)) : nat :=
  length (filter (λ acc, isUpcoming today acc = true) (flat_values accounts)).

(** [o[k]] on an object with string keys, [undefined] when absent. *)
Fixpoint obj_get {V : Type} (k : string) (o : list (string * V)) : option V :=
  match o with
  | [] => None
  | (k', v) :: o' => if String.eqb k' k then Some v else obj_get k o'
  end.

(** [getPipelineValues]: every funnel stage starts at 0, then each account
    outside the three excluded stages adds [account.value || 0] to
    [values[account.stage] || 0]. *)
Definition getPipelineValues (accounts : list (string * list account))
  : list (string * num) :=
  let values :=
    foldl (λ values s, obj_set (name s) (Dec 0 0) values) [] funnelStages in
  foldl (λ values account,
           if decide (active account)
           then obj_set (stage account)
                  (num_add (or_zero_opt (obj_get (stage account) values))
                           (or_zero_opt (value account)))
                  values
           else values)
        values (flat_values accounts).

(** [Math.max(...l)]: from [-Infinity], the largest argument; [NaN] when an
    argument is [NaN]. *)
Definition Math_max (l : list num) : num :=
  foldl (λ highest x,
           match highest, x with
           | NaN, _ | _, NaN => NaN
           | _, _ => if num_ltb highest x then x else highest
           end)
        (Infty true) l.

(** [maxPipelineValue]. *)
Definition maxPipelineValue (accounts : list (string * list account))
  : num :=
  Math_max (snd <$> getPipelineValues accounts).






(** The follow-up lies in the window the filter keeps: less than a day
    before [today], at most seven days after it. *)
Definition inFollowUpWindow (today : Z) (acc : account) : Prop :=
  match nextFollowUpDate acc with
  | Some d => - msPerDay < d - today ∧ d - today ≤ 7 * msPerDay
  | None => False
  end.

#[global] Instance inFollowUpWindow_dec today acc :
  Decision (inFollowUpWindow today acc).
Proof. unfold inFollowUpWindow. destruct (nextFollowUpDate acc); apply _. Defined.

(** ** Further sample data *)

Definition lead_wayne : account :=
  {| id := "a8"; companyName := "Wayne"; stage := "New Leads";
     value := Some (Dec 700 0); nextFollowUpDate := None |}.

Definition snapshot2 : list account := [lead_globex; lead_acme; lead_wayne].

(** Two accounts of one stage whose values are the two infinities. *)
Definition lead_up : account :=
  {| id := "i1"; companyName := "Up"; stage := "Nurturing";
     value := Some (Infty false); nextFollowUpDate := None |}.
Definition lead_down : account :=
  {| id := "i2"; companyName := "Down"; stage := "Nurturing";
     value := Some (Infty true); nextFollowUpDate := None |}.

(** ** Further code of [App]: initialisation and the render gate *)

(** The four entries of [process.env] that the initialisation tests;
    [None] is [undefined]. *)
Record firebase_env : Type := {
  REACT_APP_FIREBASE_API_KEY : option string;
  REACT_APP_FIREBASE_AUTH_DOMAIN : option string;
  REACT_APP_FIREBASE_PROJECT_ID : option string;
  REACT_APP_FIREBASE_APP_ID : option string;
}.

(** ToBoolean of an environment entry. *)
Definition env_truthy (x : option string) : bool :=
  match x with
  | Some s => negb (String.eqb s "")
  | None => false
  end.

(** What the Firebase SDK does in the [try] block: it works, or a call
    before [setDb] throws ([initializeApp], [getFirestore], [getAuth]), or
    [onAuthStateChanged] throws after the two handles were set. *)
Inductive sdk_init : Type :=
| SdkReady
| SdkThrowsBeforeHandles
| SdkThrowsAtListener.

(** The state of [App] that decides what is rendered: the state of the
    handlers with [auth] and [isLoading]. *)
Record shell : Type := {
  appState : app_state;
  authReady : bool;
  isLoading : bool;
}.

Definition with_dbReady (b : bool) (x : app_state) : app_state :=
  {| dbReady := b; appId := appId x; user := user x;
     selectedAccount := selectedAccount x; dragItem := dragItem x;
     error := error x; showModal := showModal x |}.

Definition with_user (u : option string) (x : app_state) : app_state :=
  {| dbReady := dbReady x; appId := appId x; user := u;
     selectedAccount := selectedAccount x; dragItem := dragItem x;
     error := error x; showModal := showModal x |}.

(** The [useState] initial values; [appId] is the project id of the
    environment, which a template literal prints as "undefined" when it is
    absent. *)
Definition initial_shell (env : firebase_env) : shell :=
  {| appState :=
       {| dbReady := false;
          appId := default "undefined" (REACT_APP_FIREBASE_PROJECT_ID env);
          user := None; selectedAccount := None; dragItem := None;
          error := None; showModal := false |};
     authReady := false;
     isLoading := true |}.

(** The first effect of [App]. *)
Definition initEffect (env : firebase_env) (sdk : sdk_init) (sh : shell)
  : shell :=
  if env_truthy (REACT_APP_FIREBASE_API_KEY env)
     && env_truthy (REACT_APP_FIREBASE_AUTH_DOMAIN env)
     && env_truthy (REACT_APP_FIREBASE_PROJECT_ID env)
     && env_truthy (REACT_APP_FIREBASE_APP_ID env)
  then
    match sdk with
    | SdkReady =>
        {| appState := with_dbReady true (appState sh);
           authReady := true; isLoading := isLoading sh |}
    | SdkThrowsBeforeHandles =>
        {| appState :=
             with_error (Some "Failed to initialize the application.")
               (appState sh);
           authReady := authReady sh; isLoading := false |}
    | SdkThrowsAtListener =>
        {| appState :=
             with_error (Some "Failed to initialize the application.")
               (with_dbReady true (appState sh));
           authReady := true; isLoading := false |}
    end
  else
    {| appState :=
         with_error (Some "Firebase configuration is missing.") (appState sh);
       authReady := authReady sh; isLoading := false |}.

(** The callback given to [onAuthStateChanged]. *)
Definition authStateChanged (currentUser : option string) (sh : shell)
  : shell :=
  {| appState := with_user currentUser (appState sh);
     authReady := authReady sh; isLoading := false |}.

(** What [App] returns: the spinner, the sign-in form (given [auth]), the
    error text, or the board. *)
Inductive view : Type :=
| LoadingView
| AuthView (auth : bool)
| ErrorView (message : string)
| BoardView.

Definition render (sh : shell) : view :=
  if isLoading sh then LoadingView
  else
    match user (appState sh) with
    | None => AuthView (authReady sh)
    | Some _ =>
        match error (appState sh) with
        | Some message => ErrorView message
        | None => BoardView
        end
    end.

(** ** Further code: [AuthComponent] *)

Record auth_form : Type := {
  isLogin : bool;
  email : string;
  password : string;
  confirmPassword : string;
  firstName : string;
  lastName : string;
  authError : option string;
  loading : bool;
}.

(** The calls made on the identity provider. *)
Inductive identity_call : Type :=
| SignIn (email password : string)
| CreateUser (email password : string)
| UpdateProfile (displayName : string).

(** The identity provider: each call resolves ([None]) or rejects with an
    error whose [message] is given. *)
Record identity_provider : Type := {
  signInWithEmailAndPassword : string → string → option string;
  createUserWithEmailAndPassword : string → string → option string;
  updateProfile : string → option string;
}.

(** [handleSubmit] of the sign-in form: the form state it leaves and the
    calls it made. *)
Definition handleSubmit (idp : identity_provider) (f : auth_form)
  : auth_form * list identity_call :=
  let finish (err : option string) :=
    {| isLogin := isLogin f; email := email f; password := password f;
       confirmPassword := confirmPassword f; firstName := firstName f;
       lastName := lastName f; authError := err; loading := false |} in
  if negb (isLogin f) && negb (String.eqb (password f) (confirmPassword f))
  then (finish (Some "Passwords do not match."), [])
  else if isLogin f then
    (finish (signInWithEmailAndPassword idp (email f) (password f)),
     [SignIn (email f) (password f)])
  else
    match createUserWithEmailAndPassword idp (email f) (password f) with
    | Some message =>
        (finish (Some message), [CreateUser (email f) (password f)])
    | None =>
        let displayName := firstName f +:+ " " +:+ lastName f in
        (finish (updateProfile idp displayName),
         [CreateUser (email f) (password f); UpdateProfile displayName])
    end.

(** ** Further code of [App]: deleting an account *)

(** [deleteDoc(ref)]: the store removes the document, if there is one; the
    call rejects, leaving the store as it was, when the store is
    unreachable. The call shows in [docs]; [writes] lists the [addDoc] and
    [updateDoc] calls. *)
Definition deleteDoc (ref : string * string) : M unit :=
  s ← get;
  if storeUp (w s)
  then modify (on_world (with_docs (delete ref (docs (w s)))))
  else throw FirebaseError.

Definition handleDeleteAccount (accountId : string) : M unit :=
  s ← get;
  match dbReady (app s), user (app s) with
  | true, Some uid =>
      try_catch
        (docRef ← doc (accountsPath (appId (app s)) uid) accountId;
         _ ← deleteDoc docRef;
         _ ← setShowModal false;
         setSelectedAccount None)
        (λ _, setError "Failed to delete account.")
  | _, _ => mret tt
  end.

(** ** Predicates of the further statements *)

(** The object that [handleUpdateAccount] passes to [updateDoc], given the
    two converted dates. *)
Definition updatePayload (updatedAccount : gmap string jsval)
  (expectedCloseDate nextFollowUpDate : fsval) : gmap string fsval :=
  <["nextFollowUpDate" := nextFollowUpDate]>
  (<["expectedCloseDate" := expectedCloseDate]>
  (<["monthlyValue" := FData (VNum (or_zero (Number (updatedAccount !! "monthlyValue"))))]>
  (<["value" := FData (VNum (or_zero (Number (updatedAccount !! "value"))))]>
  (FData <$> updatedAccount)))).

(** The score that [recalculateDealScore] computes from what the endpoint
    call meets, for a stage that is not terminal. *)
Definition score_of_reply (g : gemini_env) : num :=
  match g with
  | Responds (Some t) => if String.eqb t "" then Dec 50 0 else parseFloat t
  | Responds None | NoApiKey | FetchFails => Dec 50 0
  end.

(** The notes of the form are an array without null elements, as the
    handlers that walk the notes need. *)
Definition notes_walkable (data : gmap string jsval) : Prop :=
  ∃ l, data !! "notes" = Some (VArr l)
       ∧ forallb (λ note, match note with VNull => false | _ => true end) l
         = true.

(** The editor on Stark after a reply of the endpoint put a text where the
    notes were. *)
Definition saving_bad_notes : st :=
  {| w := demo_world FetchFails; app := demo_app (Some lead_stark) None;
     form := demo_form (<["notes" := VStr "see the call log"]> stark_formData)
               "" |}.

(** ** Further code of [AccountForm]: drafting with the endpoint *)

(** [x > 0] for a number. *)
Definition num_positive (n : num) : bool :=
  match n with
  | NaN => false
  | Infty negative => negb negative
  | Dec m _ => 0 <? m
  end.

(** The last value of key [k] in an object, [undefined] when absent. *)
Definition obj_last (k : string) (o : list (string * jsval)) : option jsval :=
  foldl (λ found kv, if String.eqb kv.1 k then Some kv.2 else found) None o.

(** [formData.notes.length > 0 ? formData.notes.map(note =>
    note.text).join('\n') : '...']: the text only travels to the endpoint;
    what matters is whether the expression throws. [length] of a number or
    a boolean is [undefined], which is not above 0; an object is asked for
    its own key; [map] exists on arrays only. *)
Definition notesSummary (notes : option jsval) : M unit :=
  match notes with
  | None | Some VNull =>
      throw (TypeError "Cannot read properties of undefined")
  | Some (VArr l) =>
      if forallb (λ note, match note with VNull => false | _ => true end) l
      then mret tt
      else throw (TypeError "Cannot read properties of null")
  | Some (VStr s) =>
      if String.eqb s "" then mret tt
      else throw (TypeError "formData.notes.map is not a function")
  | Some (VBool _) | Some (VNum _) => mret tt
  | Some (VObj o) =>
      if num_positive (Number (obj_last "length" o))
      then throw (TypeError "formData.notes.map is not a function")
      else mret tt
  end.

(** [handleDraftEmail]; its result is the text handed to
    [setEmailDraft]. *)
Definition handleDraftEmail : M string :=
  _ ← setLoadingAI true;
  _ ← setDictationStatus "Drafting email...";
  s ← get;
  _ ← notesSummary (formData (form s) !! "notes");
  draft ← callGeminiAPI;
  let shown :=
    match draft with
    | Some t =>
        if String.eqb t ""
        then "Failed to generate email draft. Please try again."
        else t
    | None => "Failed to generate email draft. Please try again."
    end in
  _ ← setLoadingAI false;
  _ ← setDictationStatus "";
  mret shown.

(** [handleGenerateAgenda]; its result is the text handed to [setAgenda],
    [marked_parse] being [marked.parse]. *)
Definition handleGenerateAgenda (marked_parse : string → string) : M string :=
  _ ← setLoadingAI true;
  _ ← setDictationStatus "Generating agenda...";
  s ← get;
  _ ← notesSummary (formData (form s) !! "notes");
  generatedAgenda ← callGeminiAPI;
  let shown :=
    match generatedAgenda with
    | Some t =>
        if String.eqb t ""
        then "Failed to generate meeting agenda. Please try again."
        else marked_parse t
    | None => "Failed to generate meeting agenda. Please try again."
    end in
  _ ← setLoadingAI false;
  _ ← setDictationStatus "";
  mret shown.

(** The endpoint's text when the call yields a non-empty one. *)
Definition reply_text (g : gemini_env) : option string :=
  match g with
  | Responds (Some t) => if String.eqb t "" then None else Some t
  | Responds None | NoApiKey | FetchFails => None
  end.

(** The five keys that the card scan always sets. *)
Definition contactKeys : list string :=
  ["contactName"; "contactEmail"; "contactPhone"; "contactTitle";
   "companyName"].

(** ** Further code of [AccountForm]: dictating the account fields *)

(** The [onend] callback that [handleDictate] installs, for the final
    transcript gathered by [onresult]. It first clears [recognitionRef], a
    ref that only selects the button shown. [JSON_parse] is
    [JSON.parse]. *)
Definition recognition_onend (JSON_parse : string → option jsval)
  (finalTranscript : string) : M unit :=
  if String.eqb (trim finalTranscript) "" then
    _ ← setLoadingAI false;
    _ ← setDictationStatus "";
    console_warn "Speech recognition ended with no final transcript."
  else
    _ ← setDictationStatus "Thinking...";
    jsonText ← callGeminiAPI;
    _ ← match jsonText with
        | Some t =>
            if String.eqb t ""
            then console_error "AI parsing failed: No text in response."
            else
              match JSON_parse t with
              | Some parsedData =>
                  value ← get_prop parsedData "value";
                  monthlyValue ← get_prop parsedData "monthlyValue";
                  setFormData (λ prev,
                    <["monthlyValue" := or_empty monthlyValue]>
                    (<["value" := or_empty value]>
                    (spread_into parsedData prev)))
              | None => throw SyntaxError
              end
        | None => console_error "AI parsing failed: No text in response."
        end;
    _ ← setLoadingAI false;
    setDictationStatus "".

(** One entry of [event.results]: [results[i].isFinal] and
    [results[i][0].transcript]. *)
Record recognition_result : Type := {
  isFinal : bool;
  transcript : string;
}.

(** The loop of [onresult] from [event.resultIndex] on: the new final
    transcript and the interim transcript. *)
Definition onresult_loop (finalTranscript : string) (resultIndex : nat)
  (results : list recognition_result) : string * string :=
  foldl (λ acc r,
           if isFinal r then (acc.1 +:+ transcript r, acc.2)
           else (acc.1, acc.2 +:+ transcript r))
        (finalTranscript, "") (drop resultIndex results).

(** ** Further code of [AccountForm]: the initial form data *)

(** The account object as the editor reads it: the fields of the board's
    record and the others the form shows. A text field is the empty string
    when absent, which [x || ''] does not tell apart; [notes] is [None]
    when the document has no notes array. *)
Record account_details : Type := {
  summary : account;
  servicesNeeded : string;
  monthlyValue : option num;
  expectedCloseDate : option Z;
  contactName : string;
  contactTitle : string;
  contactEmail : string;
  contactPhone : string;
  industry : string;
  website : string;
  companySize : string;
  leadSource : string;
  notes : option (list jsval);
  lostReason : string;
  dealScore : option num;
}.

(** [x || ''] for a stored amount. *)
Definition amount_or_empty (x : option num) : jsval :=
  match x with
  | Some v => if num_truthy v then VNum v else VStr ""
  | None => VStr ""
  end.

(** The argument of [useState] for [formData]; [isoDate] gives the date
    part of [toDate().toISOString()]. *)
Definition initialFormData (isoDate : Z → string)
  (account : option account_details) : gmap string jsval :=
  let text (f : account_details → string) : jsval :=
    VStr (from_option f "" account) in
  let date (f : account_details → option Z) : jsval :=
    VStr (from_option isoDate "" (account ≫= f)) in
  <["dealScore" :=
      VNum (match account ≫= dealScore with
            | Some n => if num_truthy n then n else Dec 50 0
            | None => Dec 50 0
            end)]>
  (<["lostReason" := text lostReason]>
  (<["notes" := VArr (default [] (account ≫= notes))]>
  (<["stage" :=
       VStr (match account with
             | Some a => if String.eqb (stage (summary a)) ""
                         then "Business Intel" else stage (summary a)
             | None => "Business Intel"
             end)]>
  (<["leadSource" := text leadSource]>
  (<["companySize" := text companySize]>
  (<["website" := text website]>
  (<["industry" := text industry]>
  (<["contactPhone" := text contactPhone]>
  (<["contactEmail" := text contactEmail]>
  (<["contactTitle" := text contactTitle]>
  (<["contactName" := text contactName]>
  (<["nextFollowUpDate" := date (λ a, nextFollowUpDate (summary a))]>
  (<["expectedCloseDate" := date expectedCloseDate]>
  (<["monthlyValue" := amount_or_empty (account ≫= monthlyValue)]>
  (<["value" := amount_or_empty (account ≫= (λ a, value (summary a)))]>
  (<["servicesNeeded" := text servicesNeeded]>
  (<["companyName" := text (λ a, companyName (summary a))]>
   ∅))))))))))))))))).

(** ** Further sample data for the merge and the editor *)

Definition jstr (s : string) : string := DQUOTE +:+ s +:+ DQUOTE.

(** A reply of the endpoint to a dictation that named a contact and a
    value only, and a stand-in parser that knows this one reply. *)
Definition dictation_reply : string :=
  "{" +:+ jstr "companyName" +:+ ": null, "
      +:+ jstr "contactName" +:+ ": " +:+ jstr "Ada" +:+ ", "
      +:+ jstr "value" +:+ ": 4000, "
      +:+ jstr "monthlyValue" +:+ ": null}".

Definition JSON_parse_dictation (text : string) : option jsval :=
  if String.eqb text dictation_reply
  then Some (VObj [("companyName", VNull); ("contactName", VStr "Ada");
                   ("value", VNum (Dec 4000 0)); ("monthlyValue", VNull)])
  else None.

Definition dictating (reply : string) : st :=
  {| w := demo_world (Responds (Some reply));
     app := demo_app (Some lead_stark) None;
     form := demo_form stark_formData "" |}.

(** An account stored with a value of 0, opened in the editor. *)
Definition free_trial : account_details :=
  {| summary := {| id := "a9"; companyName := "Pied Piper";
                   stage := "Nurturing"; value := Some (Dec 0 0);
                   nextFollowUpDate := None |};
     servicesNeeded := "Pilot"; monthlyValue := Some (Dec 90 0);
     expectedCloseDate := None; contactName := ""; contactTitle := "";
     contactEmail := ""; contactPhone := ""; industry := ""; website := "";
     companySize := ""; leadSource := ""; notes := Some [];
     lostReason := ""; dealScore := Some (Dec 40 0) |}.

Definition isoDate_demo (t : Z) : string :=
  if t =? 1767225600000 then "2026-01-01" else "1970-01-01".

Definition editing_free_trial : st :=
  {| w := demo_world FetchFails; app := demo_app (Some (summary free_trial)) None;
     form := demo_form (initialFormData isoDate_demo (Some free_trial)) "" |}.

(** The text holds a backquote. *)
Fixpoint has_backquote (s : string) : bool :=
  match s with
  | EmptyString => false
  | String c s' => Ascii.eqb c "096"%char || has_backquote s'
  end.

(** The editor on Stark while the store cannot be reached. *)
Definition editing_offline : st :=
  {| w := {| docs := docs (demo_world FetchFails); storeUp := false;
             freshId := "a7"; clock := 1767225600000;
             nowISO := "2026-01-01T00:00:00.000Z"; gemini := FetchFails;
             console := []; writes := [] |};
     app := demo_app (Some lead_stark) None;
     form := demo_form stark_formData "" |}.


(** * Properties *)

(** ** Numbers *)

Example parseFloat_150 : parseFloat "150" = Dec 150 0.
Proof. reflexivity. Qed.
Example parseFloat_frac : parseFloat " 72.5 percent" = Dec 725 (-1).
Proof. reflexivity. Qed.
Example parseFloat_word : parseFloat "high" = NaN.
Proof. reflexivity. Qed.
Example Number_1000 : Number (Some (VStr "1000")) = Dec 1000 0.
Proof. reflexivity. Qed.
Example Number_empty : Number (Some (VStr "")) = Dec 0 0.
Proof. reflexivity. Qed.
Example Number_junk : Number (Some (VStr "12abc")) = NaN.
Proof. reflexivity. Qed.
Example Number_hex : Number (Some (VStr "0x1F")) = Dec 31 0.
Proof. reflexivity. Qed.

Example trim_spaces : trim "  Called the client  " = "Called the client".
Proof. reflexivity. Qed.
Example trim_blank : trim (String LF "  ") = "".
Proof. reflexivity. Qed.
Example remove_fences_block :
  remove_fences 0 (fence_open +:+ "{}" +:+ fence_close) = "{}".
Proof. reflexivity. Qed.
Example remove_fences_plain : remove_fences 0 "not json" = "not json".
Proof. reflexivity. Qed.

Example parseFloat_trailing_zero : parseFloat "85.0" = Dec 85 0.
Proof. reflexivity. Qed.
Example Number_rounds : Number (Some (VStr "9007199254740993")) = Dec 9007199254740992 0.
Proof. reflexivity. Qed.
Example Number_underflow : Number (Some (VStr "1e-400")) = Dec 0 0.
Proof. reflexivity. Qed.
Example Number_overflow : Number (Some (VStr "1e400")) = Infty false.
Proof. reflexivity. Qed.
Example num_add_rounds :
  num_add (parseFloat "0.1") (parseFloat "0.2") = parseFloat "0.30000000000000004"
  ∧ num_add (parseFloat "0.1") (parseFloat "0.2") ≠ parseFloat "0.3".
Proof. split; [by vm_compute|]. vm_compute. discriminate. Qed.
Example num_add_infinities : num_add (Infty false) (Infty true) = NaN.
Proof. reflexivity. Qed.

Lemma strip_zeros_pow10 (j : nat) (m : Z) :
  strip_zeros j (m * 10 ^ Z.of_nat j) (- Z.of_nat j) = Dec m 0.
Proof.
  induction j as [|j IH].
  - simpl. by rewrite Z.mul_1_r.
  - cbn [strip_zeros].
    assert (He : (- Z.of_nat (S j) <? 0) = true) by (apply Z.ltb_lt; lia).
    assert (Hp : m * 10 ^ Z.of_nat (S j) = (m * 10 ^ Z.of_nat j) * 10).
    { rewrite Nat2Z.inj_succ, Z.pow_succ_r by lia. ring. }
    rewrite He, Hp, Z.mod_mul by lia. simpl andb. cbv iota.
    rewrite Z.div_mul by lia.
    replace (- Z.of_nat (S j) + 1) with (- Z.of_nat j) by lia.
    apply IH.
Qed.

Lemma dyadic_int (k j : Z) :
  0 ≤ j → dyadic (k * 2 ^ j) (- j) = Dec k 0.
Proof.
  intros Hj. unfold dyadic.
  destruct (Z.eqb_spec k 0) as [->|Hk]; [done|].
  assert (Hnz : k * 2 ^ j ≠ 0) by (apply Z.neq_mul_0; split; [done|]; apply Z.pow_nonzero; lia).
  apply Z.eqb_neq in Hnz. rewrite Hnz.
  destruct (Z.eq_dec j 0) as [->|Hj0].
  - simpl. f_equal. lia.
  - assert (H0 : (0 <=? - j) = false) by (apply Z.leb_gt; lia).
    rewrite H0, Z.opp_involutive.
    replace (k * 2 ^ j * 5 ^ j) with (k * 10 ^ j)
      by (rewrite <- Z.mul_assoc, <- Z.pow_mul_l; reflexivity).
    rewrite <- (Z2Nat.id j) at 2 3 by lia.
    apply strip_zeros_pow10.
Qed.

(** Rounding leaves an integer of at most 53 bits as it is. *)
Lemma round_ratio_int (neg : bool) (a : Z) :
  0 < a < 2 ^ 53 →
  round_ratio neg a 1 = Dec (if neg then - a else a) 0.
Proof.
  intros [Hpos Hlt]. unfold round_ratio.
  change (Z.log2 1) with 0. rewrite Z.sub_0_r.
  pose proof (Z.log2_nonneg a) as Hex0.
  pose proof (Z.log2_spec a Hpos) as [Hlo _].
  assert (Hex : Z.log2 a < 53) by (apply Z.log2_lt_pow2; lia).
  set (ex := Z.log2 a) in *.
  assert (H1 : (0 <=? ex) = true) by (apply Z.leb_le; lia).
  assert (H2 : (1 * 2 ^ ex <=? a) = true) by (apply Z.leb_le; lia).
  rewrite H1, H2.
  rewrite Z.max_l by lia.
  set (j := 52 - ex).
  replace (ex - 52) with (- j) by (unfold j; lia).
  destruct (Z.eq_dec j 0) as [Hj|Hj].
  - rewrite Hj. change (- 0) with 0. change (0 <? 0) with false.
    change (0 <=? 0) with true. cbv iota.
    rewrite Z.pow_0_r, !Z.mul_1_r, Z.div_1_r, Z.mod_1_r.
    change (1 <? 2 * 0) with false. change (2 * 0 =? 1) with false.
    simpl orb. cbv iota.
    assert (H3 : (2 ^ 1024 <=? a) = false).
    { apply Z.leb_gt. eapply Z.lt_trans; [exact Hlt|]. by apply Z.pow_lt_mono_r. }
    rewrite H3. simpl andb. cbv iota.
    rewrite <- (Z.mul_1_r (if neg then - a else a)) at 1.
    change 1 with (2 ^ 0) at 1. change 0 with (- 0) at 2.
    by apply dyadic_int.
  - assert (Hjpos : 0 < j) by (unfold j; lia).
    assert (H3 : (- j <? 0) = true) by (apply Z.ltb_lt; lia).
    assert (H4 : (0 <=? - j) = false) by (apply Z.leb_gt; lia).
    rewrite H3, H4, Z.opp_involutive, Z.div_1_r, Z.mod_1_r.
    simpl (1 <? 2 * 0). simpl (2 * 0 =? 1). simpl orb. simpl andb. cbv iota.
    replace (if neg then - (a * 2 ^ j) else a * 2 ^ j)
      with ((if neg then - a else a) * 2 ^ j) by (destruct neg; ring).
    apply dyadic_int; lia.
Qed.

Lemma binary64_int (n : Z) :
  Z.abs n ≤ MAX_SAFE_INTEGER → binary64 n 0 = Dec n 0.
Proof.
  intros Hn. unfold MAX_SAFE_INTEGER in Hn.
  assert (Z.abs n < 2 ^ 53) by (change (2 ^ 53) with 9007199254740992; lia).
  unfold binary64.
  destruct (Z.eqb_spec n 0) as [->|Hnz]; [done|].
  simpl (0 <=? 0). cbv iota. rewrite Z.pow_0_r, Z.mul_1_r.
  rewrite round_ratio_int by lia.
  destruct (Z.ltb_spec n 0); f_equal; lia.
Qed.

Lemma num_add_int (a b : Z) :
  Z.abs (a + b) ≤ MAX_SAFE_INTEGER →
  num_add (Dec a 0) (Dec b 0) = Dec (a + b) 0.
Proof.
  intros H. unfold num_add. simpl (Z.min 0 0). simpl (0 - 0).
  rewrite Z.pow_0_r, !Z.mul_1_r. by apply binary64_int.
Qed.

Lemma or_zero_not_NaN n : or_zero n ≠ NaN.
Proof. unfold or_zero. destruct n; simpl; try done. by destruct (negb _). Qed.

(** ** The board *)

Section Sorting.
Context {A : Type} (key : A → Z).

Local Abbreviation cmp := (λ a b : A, key a - key b).
Local Abbreviation le := (λ a b : A, key a ≤ key b).

Lemma sort_insert_Permutation x l : sort_insert cmp x l ≡ₚ x :: l.
Proof.
  induction l as [|y l IH]; simpl; [done|].
  destruct (cmp x y <=? 0); [done|].
  by rewrite IH, Permutation_swap.
Qed.

Lemma sort_Permutation l : sort cmp l ≡ₚ l.
Proof.
  induction l as [|x l IH]; simpl; [done|].
  by rewrite sort_insert_Permutation, IH.
Qed.

Lemma sort_insert_sorted x l :
  StronglySorted le l → StronglySorted le (sort_insert cmp x l).
Proof.
  induction 1 as [|y l Hl IH Hy]; simpl.
  - repeat constructor.
  - destruct (Z.leb_spec (key x - key y) 0) as [Hxy|Hxy]; simpl in *.
    + constructor; [by constructor|].
      constructor; [lia|].
      eapply Forall_impl; [exact Hy|]. simpl. intros; lia.
    + constructor; [done|].
      rewrite sort_insert_Permutation. constructor; [lia|done].
Qed.

Lemma sort_sorted l : StronglySorted le (sort cmp l).
Proof.
  induction l as [|x l IH]; simpl; [constructor|].
  by apply sort_insert_sorted.
Qed.
End Sorting.

Lemma StronglySorted_lookup {A : Type} (R : A → A → Prop) (l : list A)
  (i j : nat) (a b : A) :
  StronglySorted R l → (i < j)%nat → l !! i = Some a → l !! j = Some b →
  R a b.
Proof.
  intros Hs. revert i j.
  induction Hs as [|x l Hl IH Hx]; intros i j Hij Hi Hj; [done|].
  destruct j as [|j]; [lia|]. simpl in Hj.
  destruct i as [|i]; simpl in Hi.
  - injection Hi as ->. rewrite Forall_forall in Hx.
    apply Hx. apply list_elem_of_lookup. eauto.
  - apply (IH i j); [lia|done..].
Qed.

Lemma stageNames_NoDup : NoDup stageNames.
Proof. compute_done. Qed.

Lemma organizedAccounts_buckets fetched :
  organizedAccounts fetched
  = (λ s, (name s, sortedAccounts fetched s)) <$> funnelStages.
Proof. reflexivity. Qed.

Lemma sortedAccounts_Permutation fetched s :
  sortedAccounts fetched s ≡ₚ filter (λ acc, stage acc = name s) fetched.
Proof. apply (sort_Permutation followUpDate). Qed.

Lemma sortedAccounts_stage fetched s acc :
  acc ∈ sortedAccounts fetched s → stage acc = name s ∧ acc ∈ fetched.
Proof.
  rewrite sortedAccounts_Permutation, list_elem_of_filter. tauto.
Qed.

Lemma by_stage_cons (names : list string) (a : account) (l : list account) :
  NoDup names →
  concat ((λ n, filter (λ acc, stage acc = n) (a :: l)) <$> names)
  ≡ₚ (if decide (stage a ∈ names) then [a] else [])
     ++ concat ((λ n, filter (λ acc, stage acc = n) l) <$> names).
Proof.
  induction 1 as [|n names Hn Hnd IH]; [done|].
  rewrite !fmap_cons. simpl concat. rewrite IH. clear IH.
  rewrite filter_cons.
  destruct (decide (stage a ∈ n :: names)) as [Hin|Hin],
    (decide (stage a ∈ names)) as [Hin'|Hin'],
    (decide (stage a = n)) as [Heq|Heq];
    try (exfalso; rewrite elem_of_cons in Hin; subst; tauto);
    simpl; try done.
  by rewrite Permutation_middle.
Qed.

Lemma by_stage_Permutation (names : list string) (l : list account) :
  NoDup names →
  concat ((λ n, filter (λ acc, stage acc = n) l) <$> names)
  ≡ₚ filter (λ acc, stage acc ∈ names) l.
Proof.
  intros Hnd. induction l as [|a l IH].
  - induction names as [|n names IHn]; [done|].
    apply NoDup_cons in Hnd as [_ Hnd]. simpl. by apply IHn.
  - rewrite by_stage_cons, IH, filter_cons by done.
    by destruct (decide (stage a ∈ names)).
Qed.

Lemma flat_values_organized fetched :
  flat_values (organizedAccounts fetched)
  ≡ₚ filter (λ acc, stage acc ∈ stageNames) fetched.
Proof.
  rewrite <- (by_stage_Permutation stageNames fetched stageNames_NoDup).
  unfold flat_values. rewrite organizedAccounts_buckets.
  unfold stageNames. rewrite <- !list_fmap_compose.
  induction funnelStages as [|s l IH]; [done|].
  rewrite !fmap_cons. simpl concat.
  rewrite IH. simpl. by rewrite sortedAccounts_Permutation.
Qed.

Lemma filter_Forall_id {A : Type} (P : A → Prop) `{!∀ x, Decision (P x)}
  (l : list A) :
  Forall P l → filter P l = l.
Proof.
  induction 1 as [|x l Hx Hl IH]; [done|].
  by rewrite filter_cons_True, IH.
Qed.

Lemma organizedAccounts_lookup fetched i sb :
  organizedAccounts fetched !! i = Some sb →
  ∃ s, funnelStages !! i = Some s ∧ sb = (name s, sortedAccounts fetched s).
Proof.
  rewrite organizedAccounts_buckets, list_lookup_fmap.
  destruct (funnelStages !! i) as [s|]; [|done].
  intros [= <-]. eauto.
Qed.

Lemma organizedAccounts_elem fetched n bucket :
  (n, bucket) ∈ organizedAccounts fetched →
  ∃ s, s ∈ funnelStages ∧ n = name s ∧ bucket = sortedAccounts fetched s.
Proof.
  rewrite organizedAccounts_buckets, list_elem_of_fmap.
  intros (s & [= -> ->] & Hs). eauto.
Qed.

Example organizedAccounts_snapshot1 :
  organizedAccounts snapshot1
  = [ ("Business Intel", []);
      ("New Leads", [lead_initech; lead_acme; lead_globex]);
      ("Qualified Opportunities", []); ("Needs Analysis", []);
      ("Proposal Sent", []); ("Negotiation", []);
      ("Closed Won", [lead_hooli]); ("Closed Lost", []); ("Nurturing", []) ].
Proof. reflexivity. Qed.

Example totalPipelineValue_snapshot1 :
  totalPipelineValue (organizedAccounts snapshot1) = Dec 1250 0.
Proof. reflexivity. Qed.

Example totalPipelineValue_rounds :
  totalPipelineValue (organizedAccounts [lead_big; lead_one])
  = Dec 9007199254740992 0.
Proof. reflexivity. Qed.

(** C2, as amended: when every account of the snapshot has one of the nine
    funnel-stage names as its stage, the nine buckets merged again are a
    rearrangement of the snapshot (no account lost, none duplicated). In
    general the merged buckets are a rearrangement of the accounts that have
    one of the nine names, an account with another stage being in no
    bucket, and an account lies in one bucket only. *)
Theorem C2_partition_then_merge (fetched : list account) :
  (Forall (λ acc, stage acc ∈ stageNames) fetched →
   flat_values (organizedAccounts fetched) ≡ₚ fetched)
  ∧ flat_values (organizedAccounts fetched)
    ≡ₚ filter (λ acc, stage acc ∈ stageNames) fetched
  ∧ ∀ (i j : nat) b1 b2 acc,
      organizedAccounts fetched !! i = Some b1 →
      organizedAccounts fetched !! j = Some b2 →
      acc ∈ b1.2 → acc ∈ b2.2 → i = j.
Proof.
  split; [|split].
  - intros Hknown. rewrite flat_values_organized.
    by rewrite filter_Forall_id.
  - apply flat_values_organized.
  - intros i j b1 b2 acc Hi Hj H1 H2.
    apply organizedAccounts_lookup in Hi as (s1 & Hs1 & ->).
    apply organizedAccounts_lookup in Hj as (s2 & Hs2 & ->).
    apply sortedAccounts_stage in H1 as [H1 _].
    apply sortedAccounts_stage in H2 as [H2 _].
    apply (NoDup_lookup stageNames i j (stage acc) stageNames_NoDup);
      unfold stageNames; rewrite list_lookup_fmap.
    + by rewrite Hs1, H1.
    + by rewrite Hs2, H2.
Qed.

Lemma C2_partition_then_merge_witness :
  flat_values (organizedAccounts snapshot1) ≡ₚ snapshot1.
Proof.
  apply (proj1 (C2_partition_then_merge snapshot1)).
  apply (bool_decide_unpack _). vm_compute. exact I.
Defined.

(** C2, as stated, fails: an account whose stage is none of the nine names
    is in no bucket, so merging the buckets does not give the snapshot
    back. *)
Lemma C2_unknown_stage_lost :
  flat_values (organizedAccounts [lead_acme; lead_archived]) = [lead_acme]
  ∧ ¬ flat_values (organizedAccounts [lead_acme; lead_archived])
      ≡ₚ [lead_acme; lead_archived].
Proof.
  split; [reflexivity|].
  intros Hp. apply Permutation_length in Hp. discriminate Hp.
Qed.

(** C3: in every bucket built from a snapshot, the accounts are in
    non-decreasing order of their follow-up date, the sentinel date standing
    for a missing one: two dated accounts are in date order, and an account
    without a follow-up date comes after every account that has one. The
    bucket holds exactly the snapshot's accounts of its stage. *)
Theorem C3_bucket_order (fetched : list account) (s : string)
  (bucket : list account) :
  (s, bucket) ∈ organizedAccounts fetched →
  Forall followUpInRange fetched →
  bucket ≡ₚ filter (λ acc, stage acc = s) fetched
  ∧ StronglySorted (λ a b, followUpDate a ≤ followUpDate b) bucket
  ∧ (∀ (i j : nat) a b da db,
       (i < j)%nat → bucket !! i = Some a → bucket !! j = Some b →
       nextFollowUpDate a = Some da → nextFollowUpDate b = Some db →
       da ≤ db)
  ∧ (∀ (i j : nat) a b,
       bucket !! i = Some a → bucket !! j = Some b →
       nextFollowUpDate a = None → is_Some (nextFollowUpDate b) →
       (j < i)%nat).
Proof.
  intros Hin Hrange.
  apply organizedAccounts_elem in Hin as (fs & _ & -> & ->).
  assert (Hsorted : StronglySorted (λ a b, followUpDate a ≤ followUpDate b)
                      (sortedAccounts fetched fs))
    by apply (sort_sorted followUpDate).
  split; [apply sortedAccounts_Permutation|].
  split; [exact Hsorted|]. split.
  - intros i j a b da db Hij Hi Hj Ha Hb.
    pose proof (StronglySorted_lookup _ _ i j a b Hsorted Hij Hi Hj) as Hle.
    unfold followUpDate in Hle. by rewrite Ha, Hb in Hle.
  - intros i j a b Hi Hj Ha [db Hb].
    destruct (lt_eq_lt_dec i j) as [[Hlt|Heq]|Hgt]; [exfalso| exfalso |done].
    + pose proof (StronglySorted_lookup _ _ i j a b Hsorted Hlt Hi Hj) as Hle.
      unfold followUpDate in Hle. rewrite Ha, Hb in Hle.
      assert (Hbin : b ∈ fetched).
      { eapply sortedAccounts_stage, list_elem_of_lookup_2, Hj. }
      rewrite Forall_forall in Hrange. specialize (Hrange b Hbin).
      unfold followUpInRange in Hrange. rewrite Hb in Hrange. lia.
    + subst j. congruence.
Qed.

Lemma C3_bucket_order_witness :
  let bucket := [lead_initech; lead_acme; lead_globex] in
  bucket ≡ₚ filter (λ acc, stage acc = "New Leads") snapshot1
  ∧ StronglySorted (λ a b, followUpDate a ≤ followUpDate b) bucket
  ∧ (∀ (i j : nat) a b da db,
       (i < j)%nat → bucket !! i = Some a → bucket !! j = Some b →
       nextFollowUpDate a = Some da → nextFollowUpDate b = Some db →
       da ≤ db)
  ∧ (∀ (i j : nat) a b,
       bucket !! i = Some a → bucket !! j = Some b →
       nextFollowUpDate a = None → is_Some (nextFollowUpDate b) →
       (j < i)%nat).
Proof.
  apply (C3_bucket_order snapshot1 "New Leads").
  - rewrite organizedAccounts_snapshot1. right. left.
  - repeat constructor.
Defined.

Lemma spec_counted_active (acc : account) :
  spec_counted acc = true ↔ active acc.
Proof.
  unfold spec_counted, active.
  repeat case_decide; intuition congruence.
Qed.

Lemma spec_counted_decide (acc : account) :
  spec_counted acc = bool_decide (active acc).
Proof.
  destruct (spec_counted acc) eqn:E.
  - symmetry. by apply bool_decide_eq_true, spec_counted_active.
  - symmetry. apply bool_decide_eq_false. intros H.
    apply spec_counted_active in H. congruence.
Qed.

Lemma spec_sum_filter (l : list account) (sum : num) :
  spec_sum sum l
  = foldl (λ sum acc, num_add sum (or_zero_opt (value acc))) sum
          (filter active l).
Proof.
  revert sum. induction l as [|acc l IH]; intros sum; [done|].
  cbn [spec_sum]. rewrite filter_cons, spec_counted_decide.
  destruct (decide (active acc)) as [Ha|Ha].
  - rewrite bool_decide_eq_true_2 by done. by rewrite IH.
  - rewrite bool_decide_eq_false_2 by done. by rewrite IH.
Qed.

Lemma spec_totalPipelineValue_flat (accounts : list (string * list account))
  (sum : num) :
  spec_totalPipelineValue sum accounts
  = foldl (λ sum acc, num_add sum (or_zero_opt (value acc))) sum
          (filter active (flat_values accounts)).
Proof.
  revert sum. unfold flat_values.
  induction accounts as [|[n bucket] rest IH]; intros sum; [done|].
  cbn [spec_totalPipelineValue]. rewrite fmap_cons. cbn [concat snd].
  by rewrite filter_app, foldl_app, IH, spec_sum_filter.
Qed.

Lemma exact_sum_app l1 l2 : exact_sum (l1 ++ l2) = exact_sum l1 + exact_sum l2.
Proof. induction l1 as [|a l1 IH]; simpl; lia. Qed.

Lemma exact_totalPipelineValue_flat (accounts : list (string * list account)) :
  exact_totalPipelineValue accounts = exact_sum (flat_values accounts).
Proof.
  unfold flat_values.
  induction accounts as [|[n bucket] rest IH]; [done|].
  rewrite fmap_cons. cbn [concat snd exact_totalPipelineValue].
  by rewrite exact_sum_app, IH.
Qed.

(** An integer value, read through [|| 0]. *)
Lemma or_zero_opt_int (acc : account) (v : Z) :
  int_value acc = Some v → or_zero_opt (value acc) = Dec v 0.
Proof.
  unfold int_value, or_zero_opt, or_zero.
  destruct (value acc) as [[| |m e]|]; try done.
  - destruct e; try done. intros [= ->]. simpl.
    by destruct (Z.eqb_spec v 0) as [->|].
  - by intros [= <-].
Qed.

Lemma magnitude_sum_nonneg (l : list account) : 0 ≤ magnitude_sum l.
Proof. induction l as [|a l IH]; simpl; lia. Qed.

(** While the magnitudes stay within the safe integers, the additions of
    the numbers are exact. *)
Lemma foldl_add_exact (l : list account) (z : Z) :
  Forall (λ acc, spec_counted acc = true → is_Some (int_value acc)) l →
  Z.abs z + magnitude_sum l ≤ MAX_SAFE_INTEGER →
  foldl (λ sum acc, num_add sum (or_zero_opt (value acc))) (Dec z 0)
        (filter active l)
  = Dec (z + exact_sum l) 0.
Proof.
  revert z. induction l as [|acc l IH]; intros z Hint Hsafe.
  - simpl. f_equal. lia.
  - apply Forall_cons in Hint as [Hacc Hint].
    pose proof (magnitude_sum_nonneg l) as Hnonneg.
    cbn [magnitude_sum exact_sum] in *. unfold exact_contribution in *.
    rewrite filter_cons.
    destruct (decide (active acc)) as [Ha|Ha].
    + apply spec_counted_active in Ha. rewrite Ha in *.
      destruct (Hacc eq_refl) as [v Hv]. rewrite Hv in *.
      change (default 0 (Some v)) with v in *.
      cbn [foldl]. rewrite (or_zero_opt_int acc v Hv).
      rewrite num_add_int by lia.
      rewrite IH; [f_equal; lia|done|lia].
    + assert (Hc : spec_counted acc = false).
      { destruct (spec_counted acc) eqn:E; [|done].
        by apply spec_counted_active in E. }
      rewrite Hc in *. rewrite IH; [f_equal; lia|done|lia].
Qed.

(** C4: for every board state, the total pipeline value is the sum of the
    values (0 for an account without one) of exactly the accounts on the
    board whose stage is none of 'Closed Won', 'Closed Lost' and 'Business
    Intel'. The sum is that of the numbers of the language, added in the
    order of the board; when the values that count are integers whose
    magnitudes add up to a safe integer, it is their sum as integers. *)
Theorem C4_totalPipelineValue (accounts : list (string * list account)) :
  totalPipelineValue accounts = spec_totalPipelineValue (Dec 0 0) accounts
  ∧ (safe_integer_values (flat_values accounts) →
     totalPipelineValue accounts
     = Dec (exact_totalPipelineValue accounts) 0).
Proof.
  split.
  - by rewrite spec_totalPipelineValue_flat.
  - intros [Hint Hsafe]. unfold totalPipelineValue.
    rewrite foldl_add_exact, exact_totalPipelineValue_flat; [done..|].
    simpl. lia.
Qed.

Lemma C4_totalPipelineValue_witness :
  safe_integer_values (flat_values (organizedAccounts snapshot1))
  ∧ totalPipelineValue (organizedAccounts snapshot1) = Dec 1250 0.
Proof.
  assert (Hsafe : safe_integer_values
                    (flat_values (organizedAccounts snapshot1))).
  { split; [|by vm_compute].
    repeat (constructor; [intros _; eexists; reflexivity|]). constructor. }
  split; [exact Hsafe|].
  exact (proj2 (C4_totalPipelineValue (organizedAccounts snapshot1)) Hsafe).
Defined.
(** ** Running handlers *)

Lemma bind_Ok {A B : Type} (m : M A) (f : A → M B) (s s' : st) (a : A) :
  m s = (Ok a, s') → (m ≫= f) s = f a s'.
Proof. unfold mbind, M_bind. by intros ->. Qed.

Lemma bind_Throw {A B : Type} (m : M A) (f : A → M B) (s s' : st) e :
  m s = (Throw e, s') → (m ≫= f) s = (Throw e, s').
Proof. unfold mbind, M_bind. by intros ->. Qed.

Ltac run_monad :=
  unfold final, result, host_async, mbind, M_bind, mret, M_ret, get, modify,
    throw, try_catch, try_finally in *.

Lemma recalculateDealScore_terminal (data : gmap string jsval) (s : st) :
  (data !! "stage" = Some (VStr "Closed Won") →
   recalculateDealScore data s = (Ok (Dec 100 0), s))
  ∧ (data !! "stage" = Some (VStr "Closed Lost") →
     recalculateDealScore data s = (Ok (Dec 0 0), s)).
Proof.
  unfold recalculateDealScore. split; intros ->; reflexivity.
Qed.

(** C1: the recomputed score of an account whose stage is 'Closed Won' is
    100 and that of one whose stage is 'Closed Lost' is 0, in every state
    of the world, that is whatever the endpoint answers or fails to answer:
    the endpoint is not called and nothing else changes. *)
Theorem C1_terminal_stage_score (data : gmap string jsval) (s : st) :
  (data !! "stage" = Some (VStr "Closed Won") →
   recalculateDealScore data s = (Ok (Dec 100 0), s))
  ∧ (data !! "stage" = Some (VStr "Closed Lost") →
     recalculateDealScore data s = (Ok (Dec 0 0), s)).
Proof.
  split; intros Hstage.
  - unfold recalculateDealScore. by rewrite Hstage.
  - unfold recalculateDealScore. by rewrite Hstage.
Qed.

Lemma C10_frame_stage (old : gmap string fsval) (v : fsval) :
  ({[ "stage" := v ]} ∪ old) !! "stage" = Some v
  ∧ ∀ k, k ≠ "stage" → ({[ "stage" := v ]} ∪ old) !! k = old !! k.
Proof.
  rewrite <- insert_union_singleton_l. split.
  - apply lookup_insert_eq.
  - intros k Hk. by apply lookup_insert_ne.
Qed.

(** C10: a drop of the dragged account on a stage's drop target issues one
    [updateDoc], on the dragged account's document (the document with the
    account's id in [artifacts/<appId>/users/<uid>/accounts]), with the
    payload [{stage: stageName}] and nothing else. When the store accepts it, the
    document's stage is the target stage, its other fields and all other
    documents are as before, and no error is set; when the update fails,
    the store is as before and the error message is set. *)
Theorem C10_handleDragEnd (s : st) (item : account) (uid stageName : string) :
  dragItem (app s) = Some item →
  user (app s) = Some uid →
  dbReady (app s) = true →
  let s' := final (handleDragEnd stageName) s in
  let ref := ("artifacts/" +:+ appId (app s) +:+ "/users/" +:+ uid
              +:+ "/accounts", id item) in
  writes (w s')
  = writes (w s)
    ++ [UpdateDoc ("artifacts/" +:+ appId (app s) +:+ "/users/" +:+ uid
                   +:+ "/accounts") (id item)
          {[ "stage" := FData (VStr stageName) ]}]
  ∧ (∀ old, storeUp (w s) = true → docs (w s) !! ref = Some old →
       (∃ new, docs (w s') !! ref = Some new
               ∧ new !! "stage" = Some (FData (VStr stageName))
               ∧ ∀ k, k ≠ "stage" → new !! k = old !! k)
       ∧ (∀ ref', ref' ≠ ref → docs (w s') !! ref' = docs (w s) !! ref')
       ∧ error (app s') = error (app s))
  ∧ (storeUp (w s) = false ∨ docs (w s) !! ref = None →
       docs (w s') = docs (w s)
       ∧ error (app s') = Some "Failed to update account stage.").
Proof.
  intros Hitem Huser Hdb.
  unfold handleDragEnd, doc, updateDoc, issue, setDragItem, setError,
    accountsPath.
  run_monad. simpl. rewrite Hitem, Huser, Hdb. simpl.
  destruct (storeUp (w s)) eqn:Hup;
    destruct (docs (w s) !! ("artifacts/" +:+ appId (app s) +:+ "/users/"
                             +:+ uid +:+ "/accounts", id item))
      as [old|] eqn:Hold; simpl.
  - split; [done|]. split.
    + intros old' _ [= <-]. split; [|split; [|done]].
      * exists ({[ "stage" := FData (VStr stageName) ]} ∪ old).
        rewrite lookup_insert_eq. split; [done|]. apply C10_frame_stage.
      * intros ref' Hne. by rewrite lookup_insert_ne.
    + intros [?|?]; done.
  - split; [done|]. split; [done|]. done.
  - split; [done|]. split; [done|]. done.
  - split; [done|]. split; [done|]. done.
Qed.

Lemma C1_terminal_stage_score_witness :
  recalculateDealScore (formData (form editing_won)) editing_won
  = (Ok (Dec 100 0), editing_won)
  ∧ recalculateDealScore (formData (form editing_lost)) editing_lost
    = (Ok (Dec 0 0), editing_lost).
Proof.
  split.
  - apply (C1_terminal_stage_score (formData (form editing_won)) editing_won).
    reflexivity.
  - apply (C1_terminal_stage_score (formData (form editing_lost))
             editing_lost).
    reflexivity.
Defined.

Lemma C10_handleDragEnd_witness :
  let s' := final (handleDragEnd "Qualified Opportunities") dragging_acme in
  writes (w s')
  = [UpdateDoc "artifacts/crm-demo/users/u1/accounts" "a1"
       {[ "stage" := FData (VStr "Qualified Opportunities") ]}]
  ∧ docs (w s') !! ("artifacts/crm-demo/users/u1/accounts", "a1")
    = Some (<["stage" := FData (VStr "Qualified Opportunities")]> acme_doc)
  ∧ docs (w s') !! ("artifacts/crm-demo/users/u1/accounts", "a6")
    = Some stark_doc
  ∧ error (app s') = None.
Proof.
  destruct (C10_handleDragEnd dragging_acme lead_acme "u1"
              "Qualified Opportunities" eq_refl eq_refl eq_refl)
    as (Hw & Hok & _).
  destruct (Hok acme_doc eq_refl eq_refl) as (_ & Hframe & Herr).
  split; [exact Hw|]. split; [|split; [|exact Herr]].
  - vm_compute. reflexivity.
  - rewrite Hframe; [reflexivity|]. intros [= ?].
Defined.

Section HandlerProperties.

Variable fromDate : jsval → option Z.
Variable JSON_parse : string → option jsval.
Variable typeMismatch : input_type → option jsval → bool.
Variable keptEmpty : string → bool.


(** What [handleAddNote] does for an account being edited and a note that
    is not blank: it throws before it reaches the store. With a notes array
    in the form the exception is the ReferenceError of the unbound [db]. *)
Lemma handleAddNote_throws (s : st) (account : account) :
  selectedAccount (app s) = Some account →
  trim (newNote (form s)) ≠ "" →
  (∀ l, formData (form s) !! "notes" = Some (VArr l) →
        handleAddNote s = (Throw (ReferenceError "db"), s))
  ∧ ∃ e, handleAddNote s = (Throw e, s).
Proof.
  intros Hacc Hnote.
  assert (Hblank : String.eqb (trim (newNote (form s))) "" = false)
    by by apply String.eqb_neq.
  unfold handleAddNote, spread_iterable, resolve. run_monad.
  rewrite Hacc, Hblank. split.
  - by intros l ->.
  - destruct (formData (form s) !! "notes") as [[]|]; simpl; eauto.
Qed.

(** [handleAddNote] never reaches the store: in every state it leaves the
    documents, the issued writes and the form as they were. *)
Lemma handleAddNote_no_effect (s : st) : final handleAddNote s = s.
Proof.
  unfold final.
  destruct (selectedAccount (app s)) as [account|] eqn:Hacc.
  - destruct (String.eqb (trim (newNote (form s))) "") eqn:Hblank.
    + unfold handleAddNote. run_monad. by rewrite Hacc, Hblank.
    + apply String.eqb_neq in Hblank.
      destruct (handleAddNote_throws s account Hacc Hblank) as [_ [e ->]].
      done.
  - unfold handleAddNote. run_monad. by rewrite Hacc.
Qed.

End HandlerProperties.


(** C5, as stated, fails: the lostReason of the form is null (a merged
    reply of the endpoint carried [lostReason: null]) and the stage is
    'Closed Lost', but the textarea still holds the reason typed before,
    so the validation passes; [handleSave] runs and [updateDoc] stores the
    account with stage 'Closed Lost' and a lostReason of null. *)
Lemma C5_null_lost_reason_saved :
  let s := editing_lost_null in
  let s' := final (clickSubmit fromDate_demo typeMismatch_demo
                               kept_reason_typed) s in
  formData (form s) !! "stage" = Some (VStr "Closed Lost")
  ∧ formData (form s) !! "lostReason" = Some VNull
  ∧ (∃ data,
       writes (w s')
       = [UpdateDoc "artifacts/crm-demo/users/u1/accounts" "a6" data]
       ∧ data !! "stage" = Some (FData (VStr "Closed Lost"))
       ∧ data !! "lostReason" = Some (FData VNull))
  ∧ (∃ d, docs (w s') !! ("artifacts/crm-demo/users/u1/accounts", "a6")
          = Some d
          ∧ d !! "stage" = Some (FData (VStr "Closed Lost"))
          ∧ d !! "lostReason" = Some (FData VNull))
  ∧ error (app s') = None.
Proof.
  cbv zeta. split; [reflexivity|]. split; [reflexivity|].
  split; [|split].
  - eexists. split; [vm_compute; reflexivity|]. split; vm_compute; reflexivity.
  - eexists. split; [vm_compute; reflexivity|]. split; vm_compute; reflexivity.
  - vm_compute. reflexivity.
Qed.

(** C6, on the code: adding the note "Called the client" to the account
    being edited throws [ReferenceError: db is not defined]; no [updateDoc]
    is issued, the stored notes and the notes of the form are unchanged. *)
Theorem C6_handleAddNote_ReferenceError :
  handleAddNote (editing_stark "85") = (Throw (ReferenceError "db"), (editing_stark "85"))
  ∧ writes (w (final handleAddNote (editing_stark "85"))) = []
  ∧ docs (w (final handleAddNote (editing_stark "85"))) !! (demo_path, "a6")
    = Some stark_doc.
Proof.
  assert (H : handleAddNote (editing_stark "85")
              = (Throw (ReferenceError "db"), (editing_stark "85"))).
  { eapply (handleAddNote_throws (editing_stark "85") lead_stark); try reflexivity.
    vm_compute. discriminate. }
  split; [exact H|]. unfold final. rewrite H. split; reflexivity.
Qed.

Lemma or_zero_cases (n : num) :
  or_zero n
  = match n with
    | NaN => Dec 0 0
    | Infty negative => Infty negative
    | Dec m e => if m =? 0 then Dec 0 0 else Dec m e
    end.
Proof.
  unfold or_zero. destruct n as [| |m e]; simpl; try done.
  by destruct (m =? 0).
Qed.

Ltac field :=
  repeat (rewrite lookup_insert_ne by discriminate);
  first [ rewrite lookup_insert_eq | idtac ].

Section SaveProperties.

Variable fromDate : jsval → option Z.

Lemma dateField_run (x : option jsval) (s : st) :
  dateConvertible fromDate x →
  ∃ f, dateField fromDate x s = (Ok f, s).
Proof.
  unfold dateConvertible, dateField.
  destruct x as [v|]; [|by eexists].
  destruct (truthy v); [|by eexists].
  intros [t Ht]; [done|]. rewrite Ht. by eexists.
Qed.

Lemma dateField_state (x : option jsval) (s : st) :
  (dateField fromDate x s).2 = s.
Proof.
  unfold dateField.
  destruct x as [v|]; [|done].
  destruct (truthy v); [|done]. by destruct (fromDate v).
Qed.

(** C8: a creation ([handleAddAccount] with the store handle and a signed-in
    user, the dates of the form being convertible) issues one [addDoc] on
    the user's collection whose document has stage 'Business Intel',
    dealScore 50, notes [[]], createdAt set to the current time, and as
    value and monthlyValue the number that [Number] reads from the
    caller's field, or 0 when that is [NaN] or a zero (so never [NaN]),
    whatever stage, dealScore and notes the caller passed; the caller's
    other fields are copied. The store, when it accepts the call, holds
    exactly this document under the new id. *)
Theorem C8_handleAddAccount (s : st) (newAccount : gmap string jsval)
  (uid : string) :
  dbReady (app s) = true →
  user (app s) = Some uid →
  dateConvertible fromDate (newAccount !! "expectedCloseDate") →
  dateConvertible fromDate (newAccount !! "nextFollowUpDate") →
  let s' := final (handleAddAccount fromDate newAccount) s in
  let coll :=
    "artifacts/" +:+ appId (app s) +:+ "/users/" +:+ uid +:+ "/accounts" in
  let coerced (x : option jsval) : num :=
    match Number x with
    | NaN => Dec 0 0
    | Infty negative => Infty negative
    | Dec m e => if m =? 0 then Dec 0 0 else Dec m e
    end in
  ∃ data value monthlyValue,
    writes (w s') = writes (w s) ++ [AddDoc coll data]
    ∧ data !! "stage" = Some (FData (VStr "Business Intel"))
    ∧ data !! "dealScore" = Some (FData (VNum (Dec 50 0)))
    ∧ data !! "notes" = Some (FData (VArr []))
    ∧ data !! "createdAt" = Some (FTimestamp (clock (w s)))
    ∧ data !! "value" = Some (FData (VNum value))
    ∧ value = coerced (newAccount !! "value") ∧ value ≠ NaN
    ∧ data !! "monthlyValue" = Some (FData (VNum monthlyValue))
    ∧ monthlyValue = coerced (newAccount !! "monthlyValue")
    ∧ monthlyValue ≠ NaN
    ∧ data !! "companyName" = FData <$> newAccount !! "companyName"
    ∧ (storeUp (w s) = true →
       docs (w s') !! (coll, freshId (w s)) = Some data).
Proof.
  intros Hdb Huser Hd1 Hd2.
  destruct (dateField_run _ s Hd1) as [f1 Hf1].
  destruct (dateField_run _ s Hd2) as [f2 Hf2].
  unfold handleAddAccount, collection, addDoc, issue, setShowModal,
    setSelectedAccount, setError, numberField, accountsPath.
  run_monad.
  repeat (cbv beta iota; rewrite ?Hdb, ?Huser, ?Hf1, ?Hf2). simpl.
  eexists _, (or_zero (Number (newAccount !! "value"))),
    (or_zero (Number (newAccount !! "monthlyValue"))).
  split.
  { destruct (storeUp (w s)); reflexivity. }
  repeat split; try (field; reflexivity); try apply or_zero_not_NaN;
    try apply or_zero_cases.
  - field. by rewrite lookup_fmap.
  - intros ->. simpl. by rewrite lookup_insert_eq.
Qed.

Lemma handleAddAccount_date_rejected (s : st) (newAccount : gmap string jsval)
  (uid : string) (v : jsval) :
  dbReady (app s) = true →
  user (app s) = Some uid →
  newAccount !! "expectedCloseDate" = Some v →
  truthy v = true → fromDate v = None →
  let s' := final (handleAddAccount fromDate newAccount) s in
  writes (w s') = writes (w s) ∧ docs (w s') = docs (w s)
  ∧ error (app s') = Some "Failed to add new account.".
Proof.
  intros Hdb Huser Hv Ht Hnone.
  unfold handleAddAccount, collection, dateField, setError.
  run_monad.
  repeat (cbv beta iota; rewrite ?Hdb, ?Huser, ?Hv, ?Ht, ?Hnone). done.
Qed.

End SaveProperties.

Lemma C8_handleAddAccount_witness :
  (let s' := final (handleAddAccount fromDate_demo acme_formData)
                   adding_acme in
   ∃ data value monthlyValue,
     writes (w s')
     = [AddDoc "artifacts/crm-demo/users/u1/accounts" data]
     ∧ data !! "stage" = Some (FData (VStr "Business Intel"))
     ∧ data !! "dealScore" = Some (FData (VNum (Dec 50 0)))
     ∧ data !! "notes" = Some (FData (VArr []))
     ∧ data !! "createdAt" = Some (FTimestamp 1767225600000)
     ∧ data !! "value" = Some (FData (VNum value))
     ∧ value = Dec 1000 0 ∧ value ≠ NaN
     ∧ data !! "monthlyValue" = Some (FData (VNum monthlyValue))
     ∧ monthlyValue = Dec 100 0 ∧ monthlyValue ≠ NaN
     ∧ data !! "companyName" = Some (FData (VStr "Acme"))
     ∧ (true = true →
        docs (w s') !! ("artifacts/crm-demo/users/u1/accounts", "a7")
        = Some data))
  ∧ (let s' := final (handleAddAccount fromDate_demo pushy_formData)
                     adding_pushy in
     ∃ data value monthlyValue,
       writes (w s')
       = [AddDoc "artifacts/crm-demo/users/u1/accounts" data]
       ∧ data !! "stage" = Some (FData (VStr "Business Intel"))
       ∧ data !! "dealScore" = Some (FData (VNum (Dec 50 0)))
       ∧ data !! "notes" = Some (FData (VArr []))
       ∧ data !! "createdAt" = Some (FTimestamp 1767225600000)
       ∧ data !! "value" = Some (FData (VNum value))
       ∧ value = Dec 0 0 ∧ value ≠ NaN
       ∧ data !! "monthlyValue" = Some (FData (VNum monthlyValue))
       ∧ monthlyValue = Dec 0 0 ∧ monthlyValue ≠ NaN
       ∧ data !! "companyName" = Some (FData (VStr "Pushy"))
       ∧ (true = true →
          docs (w s') !! ("artifacts/crm-demo/users/u1/accounts", "a7")
          = Some data)).
Proof.
  split.
  - apply (C8_handleAddAccount fromDate_demo adding_acme acme_formData "u1");
      reflexivity.
  - apply (C8_handleAddAccount fromDate_demo adding_pushy pushy_formData
             "u1");
      reflexivity.
Defined.

Lemma store_effect_refl Q (s s' : st) :
  writes (w s') = writes (w s) → docs (w s') = docs (w s) →
  store_effect Q s s'.
Proof.
  intros Hw Hd. split.
  - exists []. by rewrite app_nil_r.
  - intros ref d. rewrite Hd. auto.
Qed.

Lemma store_effect_from Q (s0 s s' : st) :
  writes (w s) = writes (w s0) → docs (w s) = docs (w s0) →
  store_effect Q s s' → store_effect Q s0 s'.
Proof. unfold store_effect. by intros -> ->. Qed.

Lemma store_effect_mono (Q Q' : gmap string fsval → Prop) (s s' : st) :
  (∀ d, Q d → Q' d) → store_effect Q s s' → store_effect Q' s s'.
Proof.
  intros HQ [(new & Hw & Hnew) Hdocs]. split.
  - exists new. split; [done|].
    eapply Forall_impl; [exact Hnew|]. intros op. apply HQ.
  - intros ref d Hd. destruct (Hdocs ref d Hd); auto.
Qed.

Lemma has_score_union (n : num) (data old : gmap string fsval) :
  has_score n data → has_score n (data ∪ old).
Proof. unfold has_score. apply lookup_union_Some_l. Qed.

Lemma recalculateDealScore_frame (data : gmap string jsval) (s : st) :
  ∃ r s', recalculateDealScore data s = (r, s')
    ∧ app s' = app s
    ∧ docs (w s') = docs (w s)
    ∧ writes (w s') = writes (w s)
    ∧ (reply_in_range (gemini (w s)) →
       ∀ n, r = Ok n → int_0_100 n = true).
Proof.
  unfold recalculateDealScore.
  destruct (is_str (data !! "stage") "Closed Won").
  { eexists _, _. split; [done|]. repeat split. by intros _ n [= <-]. }
  destruct (is_str (data !! "stage") "Closed Lost").
  { eexists _, _. split; [done|]. repeat split. by intros _ n [= <-]. }
  unfold notesForPrompt, callGeminiAPI, console_error, setDictationStatus.
  run_monad.
  destruct (data !! "notes") as [[| | | |l|]|];
    try (eexists _, _; split; [done|]; by repeat split).
  destruct (forallb _ l);
    [|eexists _, _; split; [done|]; by repeat split].
  cbv beta iota.
  destruct (gemini (w s)) as [| |[t|]] eqn:Hg; cbv beta iota;
    try (eexists _, _; split; [done|]; repeat split; by intros _ n [= <-]).
  destruct (String.eqb t "") eqn:Ht.
  - eexists _, _; split; [done|]; repeat split; by intros _ n [= <-].
  - eexists _, _; split; [done|]; repeat split.
    intros Hr n [= <-]. apply Hr. by apply String.eqb_neq.
Qed.

Section SaveScore.

Variable fromDate : jsval → option Z.

Lemma handleAddAccount_effect (data : gmap string jsval) (s : st) :
  store_effect (has_score (Dec 50 0)) s
    (final (handleAddAccount fromDate data) s).
Proof.
  unfold handleAddAccount, collection, addDoc, issue, setShowModal,
    setSelectedAccount, setError.
  run_monad.
  destruct (dbReady (app s)) eqn:Hdb; [|by apply store_effect_refl].
  destruct (user (app s)) as [uid|] eqn:Huser; [|by apply store_effect_refl].
  repeat (cbv beta iota; rewrite ?Hdb).
  destruct (dateField fromDate (data !! "expectedCloseDate") s)
    as [r1 s1] eqn:H1.
  pose proof (dateField_state fromDate (data !! "expectedCloseDate") s) as E1.
  rewrite H1 in E1. simpl in E1. subst s1.
  destruct r1 as [f1|e1]; [|by apply store_effect_refl].
  destruct (dateField fromDate (data !! "nextFollowUpDate") s)
    as [r2 s2] eqn:H2.
  pose proof (dateField_state fromDate (data !! "nextFollowUpDate") s) as E2.
  rewrite H2 in E2. simpl in E2. subst s2.
  destruct r2 as [f2|e2]; [|by apply store_effect_refl].
  assert (Hscore : ∀ m : gmap string fsval,
            has_score (Dec 50 0)
              (<["nextFollowUpDate" := f2]>
                 (<["expectedCloseDate" := f1]>
                    (<["dealScore" := FData (VNum (Dec 50 0))]> m)))).
  { intros m. unfold has_score. by field. }
  cbv beta iota. simpl.
  destruct (storeUp (w s)); simpl; (split; [eexists (cons _ nil); split; [reflexivity|]|]).
  - constructor; [apply Hscore|constructor].
  - intros ref d. simpl.
    destruct (decide (ref = (accountsPath (appId (app s)) uid, freshId (w s))))
      as [->|Hne].
    + rewrite lookup_insert_eq. intros [= <-]. right. apply Hscore.
    + rewrite lookup_insert_ne by done. auto.
  - constructor; [apply Hscore|constructor].
  - auto.
Qed.

Lemma handleUpdateAccount_effect (data : gmap string jsval) (s : st)
  (n : num) :
  data !! "dealScore" = Some (VNum n) →
  store_effect (has_score n) s (final (handleUpdateAccount fromDate data) s).
Proof.
  intros Hn.
  unfold handleUpdateAccount, doc, updateDoc, issue, setShowModal,
    setSelectedAccount, setError.
  run_monad.
  destruct (dbReady (app s)) eqn:Hdb; [|by apply store_effect_refl].
  destruct (user (app s)) as [uid|] eqn:Huser; [|by apply store_effect_refl].
  destruct (selectedAccount (app s)) as [selected|] eqn:Hsel;
    [|by apply store_effect_refl].
  repeat (cbv beta iota; rewrite ?Hdb).
  destruct (dateField fromDate (data !! "expectedCloseDate") s)
    as [r1 s1] eqn:H1.
  pose proof (dateField_state fromDate (data !! "expectedCloseDate") s) as E1.
  rewrite H1 in E1. simpl in E1. subst s1.
  destruct r1 as [f1|e1]; [|by apply store_effect_refl].
  destruct (dateField fromDate (data !! "nextFollowUpDate") s)
    as [r2 s2] eqn:H2.
  pose proof (dateField_state fromDate (data !! "nextFollowUpDate") s) as E2.
  rewrite H2 in E2. simpl in E2. subst s2.
  destruct r2 as [f2|e2]; [|by apply store_effect_refl].
  assert (Hscore : ∀ v1 v2 : fsval,
            has_score n
              (<["nextFollowUpDate" := f2]>
                 (<["expectedCloseDate" := f1]>
                    (<["monthlyValue" := v1]>
                       (<["value" := v2]> (FData <$> data)))))).
  { intros v1 v2. unfold has_score. field. by rewrite lookup_fmap, Hn. }
  cbv beta iota. simpl.
  destruct (storeUp (w s));
    [destruct (docs (w s) !! (accountsPath (appId (app s)) uid, id selected))
       as [old|] eqn:Hold|];
    simpl; (split; [eexists (cons _ nil); split; [reflexivity|]|]).
  - constructor; [apply Hscore|constructor].
  - intros ref d. simpl.
    destruct (decide (ref = (accountsPath (appId (app s)) uid, id selected)))
      as [->|Hne].
    + rewrite lookup_insert_eq. intros [= <-]. right.
      apply has_score_union, Hscore.
    + rewrite lookup_insert_ne by done. auto.
  - constructor; [apply Hscore|constructor].
  - auto.
  - constructor; [apply Hscore|constructor].
  - auto.
Qed.

Lemma handleSave_final (s : st) :
  let s1 := on_form (with_isAddingAccount true) s in
  let data :=
    if is_str (formData (form s) !! "stage") "Business Intel"
       && negb (truthy_opt (formData (form s) !! "servicesNeeded"))
    then <["servicesNeeded" := VStr "N/A"]> (formData (form s))
    else formData (form s) in
  final (handleSave fromDate) s
  = match recalculateDealScore data s1 with
    | (Ok n, s2) =>
        on_form (with_isAddingAccount false)
          (final (onSave fromDate (<["dealScore" := VNum n]> data)) s2)
    | (Throw _, s2) => on_form (with_isAddingAccount false) s2
    end.
Proof.
  unfold handleSave, setIsAddingAccount. run_monad. cbv beta iota. simpl.
  destruct (recalculateDealScore _ _) as [[n|e] s2]; [|done].
  by destruct (onSave _ _ _) as [[] s3].
Qed.

(** C7, as amended: when the text the endpoint returns, if there is one, is
    read by [parseFloat] as an integer between 0 and 100, every write that a
    save issues (the [addDoc] of a create, the [updateDoc] of an update)
    carries a dealScore that is an integer between 0 and 100, and so does
    every document the save changes in the store. *)
Theorem C7_saved_score_in_range (s : st) :
  reply_in_range (gemini (w s)) →
  store_effect score_in_range s (final (handleSave fromDate) s).
Proof.
  intros Hreply. rewrite handleSave_final. cbv zeta.
  set (s1 := on_form (with_isAddingAccount true) s).
  match goal with
  | |- context [recalculateDealScore ?d s1] => generalize d; intros data
  end.
  destruct (recalculateDealScore_frame data s1)
    as (r & s2 & -> & Happ & Hdocs & Hwrites & Hscore).
  destruct r as [n|e]; [|by apply store_effect_refl].
  specialize (Hscore Hreply n eq_refl).
  apply (store_effect_from _ s s2); [done..|].
  assert (Heff : store_effect score_in_range s2
            (final (onSave fromDate (<["dealScore" := VNum n]> data)) s2)).
  { unfold onSave. run_monad. cbv beta iota.
    destruct (selectedAccount (app s2)).
    - apply (store_effect_mono (has_score n)); [by exists n|].
      apply handleUpdateAccount_effect, lookup_insert_eq.
    - apply (store_effect_mono (has_score (Dec 50 0)));
        [by exists (Dec 50 0)|].
      apply handleAddAccount_effect. }
  exact Heff.
Qed.

(** The save of an account being edited whose stage is terminal: every
    write it issues, and every document it changes, carries the score of
    the stage, whatever the endpoint would answer. *)
Lemma handleSave_terminal_stage (s : st) (selected : account) :
  selectedAccount (app s) = Some selected →
  (formData (form s) !! "stage" = Some (VStr "Closed Won") →
   store_effect (has_score (Dec 100 0)) s (final (handleSave fromDate) s))
  ∧ (formData (form s) !! "stage" = Some (VStr "Closed Lost") →
     store_effect (has_score (Dec 0 0)) s (final (handleSave fromDate) s)).
Proof.
  intros Hsel.
  split; intros Hstage; rewrite handleSave_final; cbv zeta;
    rewrite Hstage; simpl is_str; cbv iota; simpl andb; cbv iota.
  - rewrite (proj1 (recalculateDealScore_terminal _ _) Hstage).
    unfold onSave. run_monad. cbv beta iota. simpl. rewrite Hsel.
    apply (store_effect_from _ s (on_form (with_isAddingAccount true) s));
      [done..|].
    apply handleUpdateAccount_effect, lookup_insert_eq.
  - rewrite (proj2 (recalculateDealScore_terminal _ _) Hstage).
    unfold onSave. run_monad. cbv beta iota. simpl. rewrite Hsel.
    apply (store_effect_from _ s (on_form (with_isAddingAccount true) s));
      [done..|].
    apply handleUpdateAccount_effect, lookup_insert_eq.
Qed.

End SaveScore.

Lemma C7_saved_score_in_range_witness :
  store_effect score_in_range (editing_stark "85")
    (final (handleSave fromDate_demo) (editing_stark "85")).
Proof.
  apply (C7_saved_score_in_range fromDate_demo (editing_stark "85")).
  intros _. reflexivity.
Defined.

Example handleSave_stark_85 :
  let s' := final (handleSave fromDate_demo) (editing_stark "85") in
  writes (w s')
  = [UpdateDoc demo_path "a6"
       (<["nextFollowUpDate" := FData VNull]>
       (<["expectedCloseDate" := FData VNull]>
       (<["monthlyValue" := FData (VNum (Dec 300 0))]>
       (<["value" := FData (VNum (Dec 5000 0))]>
       (FData <$> <["dealScore" := VNum (Dec 85 0)]> stark_formData)))))]
  ∧ selectedAccount (app s') = None ∧ showModal (app s') = false
  ∧ isAddingAccount (form s') = false ∧ error (app s') = None.
Proof. vm_compute. repeat split. Qed.

(** C7, as stated, fails: the endpoint answers "150" to the save of an
    account in 'Negotiation', and the document is stored with dealScore
    150. *)
Lemma C7_score_150_persisted :
  let s' := final (handleSave fromDate_demo) (editing_stark "150") in
  (∃ d, docs (w s') !! (demo_path, "a6") = Some d
        ∧ has_score (Dec 150 0) d)
  ∧ int_0_100 (Dec 150 0) = false
  ∧ ¬ store_effect score_in_range (editing_stark "150") s'.
Proof.
  cbv zeta.
  assert (Hd : ∃ d,
    docs (w (final (handleSave fromDate_demo) (editing_stark "150")))
      !! (demo_path, "a6") = Some d
    ∧ has_score (Dec 150 0) d).
  { eexists. split; vm_compute; reflexivity. }
  split; [exact Hd|]. split; [reflexivity|].
  destruct Hd as (d & Hd & Hscore).
  intros [_ Hdocs]. destruct (Hdocs _ _ Hd) as [Hsame|(n & Hn & Hr)].
  - assert (Hold : stark_doc !! "dealScore" = Some (FData (VNum (Dec 50 0))))
      by reflexivity.
    assert (Hstored : docs (w (editing_stark "150")) !! (demo_path, "a6")
                      = Some stark_doc) by reflexivity.
    rewrite Hstored in Hsame. injection Hsame as <-. congruence.
  - unfold has_score in Hn. rewrite Hscore in Hn. injection Hn as <-.
    discriminate Hr.
Qed.

Section ScanProperties.

Variable JSON_parse : string → option jsval.

(** C9: when the text the endpoint returns for a card scan does not parse,
    the form data and the note field are as before, no error message is
    set (the full-screen error is untouched and the status line shows the
    progress text or nothing), the store is not written, and exactly one
    entry is added to the console: the uncaught SyntaxError of [JSON.parse],
    or, for an empty text, the [console.error] of the handler. After the
    SyntaxError the status line keeps 'Scanning card...' and the loading
    flag stays set. *)
Theorem C9_malformed_card_reply (s : st) (mime t : string) :
  gemini (w s) = Responds (Some t) →
  JSON_parse (remove_fences 0 t) = None →
  let s' := final (handleScanBusinessCard JSON_parse (Some mime)) s in
  formData (form s') = formData (form s)
  ∧ newNote (form s') = newNote (form s)
  ∧ error (app s') = error (app s)
  ∧ writes (w s') = writes (w s) ∧ docs (w s') = docs (w s)
  ∧ (t ≠ "" →
     console (w s') = console (w s) ++ [Uncaught SyntaxError]
     ∧ dictationStatus (form s') = "Scanning card..."
     ∧ loadingAI (form s') = true)
  ∧ (t = "" →
     console (w s')
     = console (w s)
       ++ [ConsoleError "AI extraction failed: No text in response."]
     ∧ dictationStatus (form s') = ""
     ∧ loadingAI (form s') = false).
Proof.
  intros Hreply Hparse.
  unfold handleScanBusinessCard, reader_onload, callGeminiAPI, console_error,
    setLoadingAI, setDictationStatus, setFormData.
  run_monad. cbv beta iota. simpl. rewrite Hreply. cbv beta iota.
  destruct (String.eqb t "") eqn:Ht.
  - apply String.eqb_eq in Ht. simpl. by repeat split.
  - apply String.eqb_neq in Ht. rewrite Hparse. simpl. by repeat split.
Qed.

End ScanProperties.

Lemma C9_malformed_card_reply_witness :
  let s' := final (handleScanBusinessCard JSON_parse_demo (Some "image/png"))
              (scanning_card "Sorry, I cannot read this card.") in
  formData (form s') = acme_formData
  ∧ newNote (form s') = ""
  ∧ error (app s') = None
  ∧ writes (w s') = [] ∧ docs (w s') = docs (demo_world FetchFails)
  ∧ ("Sorry, I cannot read this card." ≠ "" →
     console (w s') = [] ++ [Uncaught SyntaxError]
     ∧ dictationStatus (form s') = "Scanning card..."
     ∧ loadingAI (form s') = true)
  ∧ ("Sorry, I cannot read this card." = "" →
     console (w s')
     = [] ++ [ConsoleError "AI extraction failed: No text in response."]
     ∧ dictationStatus (form s') = ""
     ∧ loadingAI (form s') = false).
Proof.
  apply (C9_malformed_card_reply JSON_parse_demo
           (scanning_card "Sorry, I cannot read this card.") "image/png"
           "Sorry, I cannot read this card."); reflexivity.
Defined.

(** A reply that parses is merged key by key, also keys the prompt did not
    ask for: here the form's stage becomes 'Archived'. *)
Example scan_merges_every_key :
  let s' := final (handleScanBusinessCard JSON_parse_card (Some "image/png"))
              (scanning_card card_reply) in
  formData (form s') !! "companyName" = Some (VStr "Umbrella")
  ∧ formData (form s') !! "stage" = Some (VStr "Archived")
  ∧ formData (form s') !! "contactName" = Some (VStr "")
  ∧ formData (form s') !! "value" = Some (VStr "1000")
  ∧ loadingAI (form s') = false ∧ console (w s') = [].
Proof. vm_compute. repeat split. Qed.

(** The save of an account in 'Closed Won' stores the score 100 without a
    call of the endpoint (which here would fail and log). *)
Example handleSave_won :
  let s' := final (handleSave fromDate_demo) editing_won in
  (∃ d, docs (w s') !! (demo_path, "a6") = Some d
        ∧ d !! "dealScore" = Some (FData (VNum (Dec 100 0)))
        ∧ d !! "stage" = Some (FData (VStr "Closed Won")))
  ∧ console (w s') = [].
Proof. split; [eexists; repeat split; vm_compute; reflexivity|reflexivity]. Qed.

(** * Further properties of the code *)

(** ** The board's sort and aggregates *)

Lemma sort_insert_stable {A : Type} (key : A → Z) (d : Z) (x : A)
  (l : list A) :
  filter (λ a, key a = d) (sort_insert (λ a b, key a - key b) x l)
  = filter (λ a, key a = d) (x :: l).
Proof.
  induction l as [|y l IH]; simpl; [done|].
  destruct (Z.leb_spec (key x - key y) 0) as [Hle|Hgt]; [done|].
  rewrite (filter_cons _ y), IH, !filter_cons.
  destruct (decide (key y = d)), (decide (key x = d)); try done; lia.
Qed.

Lemma sort_stable {A : Type} (key : A → Z) (d : Z) (l : list A) :
  filter (λ a, key a = d) (sort (λ a b, key a - key b) l)
  = filter (λ a, key a = d) l.
Proof.
  induction l as [|x l IH]; simpl; [done|].
  by rewrite sort_insert_stable, !filter_cons, IH.
Qed.

(** X1: The sort of a bucket is stable: the accounts of a stage that have the
    same follow-up date, and so all the accounts without one, are in the
    bucket in the order in which the snapshot delivered them. *)
Theorem bucket_order_stable (fetched : list account) (s : string)
  (bucket : list account) (d : Z) :
  (s, bucket) ∈ organizedAccounts fetched →
  filter (λ acc, followUpDate acc = d) bucket
  = filter (λ acc, followUpDate acc = d ∧ stage acc = s) fetched.
Proof.
  intros Hin.
  apply organizedAccounts_elem in Hin as (fs & _ & -> & ->).
  unfold sortedAccounts, compareFollowUp.
  rewrite (sort_stable followUpDate). apply list_filter_filter.
Qed.

Lemma bucket_order_stable_witness :
  filter (λ acc, followUpDate acc = farFuture)
    [lead_acme; lead_globex; lead_wayne]
  = filter (λ acc, followUpDate acc = farFuture ∧ stage acc = "New Leads")
      snapshot2.
Proof.
  apply (bucket_order_stable snapshot2 "New Leads"). right. left.
Defined.



Lemma exact_sum_Permutation (l1 l2 : list account) :
  l1 ≡ₚ l2 → exact_sum l1 = exact_sum l2.
Proof. induction 1; simpl; lia. Qed.














(** The step of the second loop of [getPipelineValues], and the same step
    on integers. *)
Local Abbreviation add_to_stage :=
  (λ (values : list (string * num)) (account : account),
     if decide (active account)
     then obj_set (stage account)
            (num_add (or_zero_opt (obj_get (stage account) values))
                     (or_zero_opt (value account)))
            values
     else values).

Local Abbreviation add_to_stage_int :=
  (λ (bars : list (string * Z)) (account : account),
     if decide (active account)
     then obj_set (stage account)
            (default 0 (obj_get (stage account) bars)
             + default 0 (int_value account))
            bars
     else bars).







Lemma excluded_stage_no_active (n : string) (l : list account) :
  n ∈ ["Business Intel"; "Closed Won"; "Closed Lost"] →
  filter (λ acc, active acc ∧ stage acc = n) l = [].
Proof.
  intros Hn. induction l as [|a l IH]; [done|].
  rewrite filter_cons_False; [exact IH|].
  unfold active. intros [(H1 & H2 & H3) H4].
  repeat (apply elem_of_cons in Hn as [->|Hn]; [congruence|]).
  by inversion Hn.
Qed.

Lemma excluded_stage_known (n : string) :
  n ∈ ["Business Intel"; "Closed Won"; "Closed Lost"] → n ∈ stageNames.
Proof.
  intros Hn.
  repeat (apply elem_of_cons in Hn as [->|Hn];
          [apply (bool_decide_unpack _); by vm_compute|]).
  by inversion Hn.
Qed.




(** Outside the safe integers the chart and the total part: after the two
    infinities the bar of the stage is [NaN], which the next account of the
    stage replaces through [|| 0], while the total stays [NaN]. *)
Example getPipelineValues_NaN :
  obj_get "Nurturing" (getPipelineValues [("Nurturing", [lead_up; lead_down])])
  = Some NaN
  ∧ obj_get "Nurturing"
      (getPipelineValues
         [("Nurturing",
           [lead_up; lead_down;
            {| id := "i3"; companyName := "Next"; stage := "Nurturing";
               value := Some (Dec 7 0); nextFollowUpDate := None |}])])
    = Some (Dec 7 0)
  ∧ totalPipelineValue
      [("Nurturing",
        [lead_up; lead_down;
         {| id := "i3"; companyName := "Next"; stage := "Nurturing";
            value := Some (Dec 7 0); nextFollowUpDate := None |}])]
    = NaN.
Proof. repeat split; reflexivity. Qed.





(** The step of the loop of [Math.max]. *)
Local Abbreviation max_step :=
  (λ highest x : num,
     match highest, x with
     | NaN, _ | _, NaN => NaN
     | _, _ => if num_ltb highest x then x else highest
     end).






Example maxPipelineValue_snapshot1 :
  maxPipelineValue (organizedAccounts snapshot1) = Dec 1250 0.
Proof. reflexivity. Qed.

Example maxPipelineValue_NaN :
  maxPipelineValue [("Nurturing", [lead_up; lead_down])] = NaN.
Proof. reflexivity. Qed.

Lemma dayDiff_bounds (today d k : Z) :
  dayDiff today d ≤ k ↔ d - today ≤ k * msPerDay.
Proof.
  unfold dayDiff, msPerDay.
  pose proof (Z.div_mod (- (d - today)) (1000 * 3600 * 24) ltac:(lia)) as Hdm.
  pose proof (Z.mod_pos_bound (- (d - today)) (1000 * 3600 * 24) ltac:(lia)).
  lia.
Qed.

Lemma isUpcoming_window (today : Z) (acc : account) :
  isUpcoming today acc = true ↔ inFollowUpWindow today acc.
Proof.
  unfold isUpcoming, inFollowUpWindow.
  destruct (nextFollowUpDate acc) as [d|]; [|done].
  rewrite andb_true_iff, !Z.leb_le, (dayDiff_bounds today d 7).
  assert (H0 : 0 ≤ dayDiff today d ↔ - msPerDay < d - today).
  { pose proof (dayDiff_bounds today d (-1)) as H. lia. }
  rewrite H0. done.
Qed.

(** X5: The count of upcoming follow-ups is the number of accounts on the
    board that have a follow-up date less than one day before the clock
    and at most seven days after it: a follow-up that fell due up to 24
    hours ago still counts, an account without a date never does. *)
Theorem upcomingFollowups_window (today : Z)
  (accounts : list (string * list account)) :
  upcomingFollowups today accounts
  = length (filter (inFollowUpWindow today) (flat_values accounts))
  ∧ ∀ acc, isUpcoming today acc = true ↔
           ∃ d, nextFollowUpDate acc = Some d
                ∧ - msPerDay < d - today ∧ d - today ≤ 7 * msPerDay.
Proof.
  split.
  - unfold upcomingFollowups. f_equal.
    apply list_filter_iff. intros acc. apply isUpcoming_window.
  - intros acc. rewrite isUpcoming_window. unfold inFollowUpWindow.
    destruct (nextFollowUpDate acc) as [d|]; [|by split; [|intros (? & ? & _)]].
    split; [by eauto|]. by intros (d' & [= <-] & H).
Qed.

(** ** Initialisation and the render gate *)

(** X6: An error of the initialisation is never displayed: whatever the
    environment holds and whatever the SDK does, after the first effect the
    application shows the spinner (the SDK is ready and the sign-in state
    is awaited) or the sign-in form, not the error text, although [error]
    is set when the configuration is incomplete or the SDK throws; with an
    incomplete configuration the sign-in form is shown without an [auth]
    handle. *)
Theorem init_error_not_displayed (env : firebase_env) (sdk : sdk_init) :
  let sh := initEffect env sdk (initial_shell env) in
  (render sh = LoadingView ∧ error (appState sh) = None ∧ sdk = SdkReady
   ∨ (∃ auth message, render sh = AuthView auth
                      ∧ error (appState sh) = Some message))
  ∧ (env_truthy (REACT_APP_FIREBASE_API_KEY env)
     && env_truthy (REACT_APP_FIREBASE_AUTH_DOMAIN env)
     && env_truthy (REACT_APP_FIREBASE_PROJECT_ID env)
     && env_truthy (REACT_APP_FIREBASE_APP_ID env) = false →
     render sh = AuthView false
     ∧ error (appState sh) = Some "Firebase configuration is missing."
     ∧ dbReady (appState sh) = false).
Proof.
  unfold initEffect, render. cbv zeta.
  destruct (_ && _ && _ && _).
  - split; [|done]. destruct sdk; simpl; eauto.
  - split; [right|]; simpl; eauto.
Qed.

(** X7: The error text is shown only to a signed-in user: when the sign-in
    state arrives after the first effect, the board is rendered exactly
    when a user is signed in and the initialisation set no error; a
    signed-out visitor gets the sign-in form in every case. *)
Theorem render_after_sign_in (env : firebase_env) (sdk : sdk_init)
  (currentUser : option string) :
  let sh := authStateChanged currentUser
              (initEffect env sdk (initial_shell env)) in
  (currentUser = None → ∃ auth, render sh = AuthView auth)
  ∧ (render sh = BoardView ↔
     is_Some currentUser ∧ sdk = SdkReady
     ∧ env_truthy (REACT_APP_FIREBASE_API_KEY env)
       && env_truthy (REACT_APP_FIREBASE_AUTH_DOMAIN env)
       && env_truthy (REACT_APP_FIREBASE_PROJECT_ID env)
       && env_truthy (REACT_APP_FIREBASE_APP_ID env) = true).
Proof.
  unfold authStateChanged, initEffect, render. cbv zeta.
  destruct (_ && _ && _ && _); destruct sdk, currentUser as [uid|]; simpl;
    (split; [intros; by eauto|]);
    split; try done; try (by intros (? & ? & ?)); try (by intros ([] & _));
    try (intros _; by eauto).
Qed.

(** ** The sign-in form *)

(** X8: A sign-up whose two passwords differ is stopped in the form: no call
    reaches the identity provider, the message is 'Passwords do not
    match.' and the form is no longer loading. In sign-in mode the
    confirmation field is not looked at. *)
Theorem handleSubmit_password_mismatch (idp : identity_provider)
  (f : auth_form) :
  (isLogin f = false → password f ≠ confirmPassword f →
   (handleSubmit idp f).2 = []
   ∧ authError (handleSubmit idp f).1 = Some "Passwords do not match."
   ∧ loading (handleSubmit idp f).1 = false)
  ∧ (isLogin f = true →
     (handleSubmit idp f).2 = [SignIn (email f) (password f)]).
Proof.
  unfold handleSubmit. split.
  - intros -> Hne. apply String.eqb_neq in Hne. by rewrite Hne.
  - by intros ->.
Qed.

(** X9: Every submission ends with the form not loading. No error is shown
    exactly when every call the submission made resolved; a shown error is
    the provider's message or the mismatch text. The profile is updated
    only by a sign-up whose passwords agree and whose account creation
    resolved, right after that creation and with the display name 'first
    last': a rejected profile update shows an error for an account that
    exists. *)
Theorem handleSubmit_outcome (idp : identity_provider) (f : auth_form) :
  let f' := (handleSubmit idp f).1 in
  let calls := (handleSubmit idp f).2 in
  loading f' = false
  ∧ (authError f' = None ↔
     (isLogin f = true ∨ password f = confirmPassword f)
     ∧ Forall (λ c, match c with
                    | SignIn e p => signInWithEmailAndPassword idp e p = None
                    | CreateUser e p =>
                        createUserWithEmailAndPassword idp e p = None
                    | UpdateProfile n => updateProfile idp n = None
                    end) calls)
  ∧ (∀ n, UpdateProfile n ∈ calls →
       isLogin f = false ∧ password f = confirmPassword f
       ∧ createUserWithEmailAndPassword idp (email f) (password f) = None
       ∧ n = firstName f +:+ " " +:+ lastName f
       ∧ calls = [CreateUser (email f) (password f); UpdateProfile n]).
Proof.
  unfold handleSubmit. cbv zeta.
  destruct (isLogin f) eqn:Hlogin; simpl.
  - split; [done|]. split.
    + split.
      * intros H. split; [by left|]. by repeat constructor.
      * intros [_ H]. by inversion H.
    + intros n Hn. apply elem_of_cons in Hn as [Hn|Hn]; [done|].
      by inversion Hn.
  - destruct (String.eqb_spec (password f) (confirmPassword f)) as [Heq|Hne];
      simpl.
    + destruct (createUserWithEmailAndPassword idp (email f) (password f))
        as [message|] eqn:Hcreate; simpl.
      * split; [done|]. split.
        -- split; [done|]. intros [_ H]. inversion H; congruence.
        -- intros n Hn. apply elem_of_cons in Hn as [Hn|Hn]; [done|].
           by inversion Hn.
      * split; [done|]. split.
        -- split.
           ++ intros H. split; [by right|]. by repeat constructor.
           ++ intros [_ H]. inversion H as [|? ? _ H']. by inversion H'.
        -- intros n Hn. apply elem_of_cons in Hn as [Hn|Hn]; [done|].
           apply elem_of_cons in Hn as [Hn|Hn]; [|by inversion Hn].
           injection Hn as ->. done.
    + split; [done|]. split.
      * split; [done|]. intros [[?|?] _]; done.
      * intros n Hn. by inversion Hn.
Qed.

(** ** The store handlers of [App] *)



(** X11: Without a signed-in user no handler of [App] touches anything: a drop,
    a create, an update and a delete return with the state as it was. The
    create, update and delete handlers also return at once without a store
    handle, and the update without a selected account; a drop with nothing
    dragged does nothing. *)
Theorem handlers_guarded (fromDate : jsval → option Z) (s : st)
  (data : gmap string jsval) (x : string) :
  (user (app s) = None →
   handleDragEnd x s = (Ok tt, s)
   ∧ handleAddAccount fromDate data s = (Ok tt, s)
   ∧ handleUpdateAccount fromDate data s = (Ok tt, s)
   ∧ handleDeleteAccount x s = (Ok tt, s))
  ∧ (dbReady (app s) = false →
     handleAddAccount fromDate data s = (Ok tt, s)
     ∧ handleUpdateAccount fromDate data s = (Ok tt, s)
     ∧ handleDeleteAccount x s = (Ok tt, s))
  ∧ (selectedAccount (app s) = None →
     handleUpdateAccount fromDate data s = (Ok tt, s))
  ∧ (dragItem (app s) = None → handleDragEnd x s = (Ok tt, s)).
Proof.
  unfold handleDragEnd, handleAddAccount, handleUpdateAccount,
    handleDeleteAccount.
  run_monad.
  split; [|split; [|split]]; intros H; rewrite H.
  - repeat split; by repeat case_match.
  - repeat split; by repeat case_match.
  - by repeat case_match.
  - done.
Qed.

Section UpdateProperties.

Variable fromDate : jsval → option Z.

Lemma handleUpdateAccount_ok (s : st) (data : gmap string jsval)
  (uid : string) (selected : account) (old : gmap string fsval) :
  dbReady (app s) = true →
  user (app s) = Some uid →
  selectedAccount (app s) = Some selected →
  dateConvertible fromDate (data !! "expectedCloseDate") →
  dateConvertible fromDate (data !! "nextFollowUpDate") →
  storeUp (w s) = true →
  docs (w s) !! (accountsPath (appId (app s)) uid, id selected) = Some old →
  ∃ f1 f2,
    dateField fromDate (data !! "expectedCloseDate") s = (Ok f1, s)
    ∧ dateField fromDate (data !! "nextFollowUpDate") s = (Ok f2, s)
    ∧ handleUpdateAccount fromDate data s
      = (Ok tt,
         on_app (with_selectedAccount None)
           (on_app (with_showModal false)
              (on_world
                 (with_docs
                    (<[(accountsPath (appId (app s)) uid, id selected)
                       := updatePayload data f1 f2 ∪ old]> (docs (w s))))
                 (on_world
                    (λ x, with_writes
                            (writes x
                             ++ [UpdateDoc (accountsPath (appId (app s)) uid)
                                   (id selected) (updatePayload data f1 f2)])
                            x)
                    s)))).
Proof.
  intros Hdb Huser Hsel Hd1 Hd2 Hup Hold.
  destruct (dateField_run fromDate _ s Hd1) as [f1 Hf1].
  destruct (dateField_run fromDate _ s Hd2) as [f2 Hf2].
  exists f1, f2. split; [done|]. split; [done|].
  unfold handleUpdateAccount, doc, updateDoc, issue, setShowModal,
    setSelectedAccount, setError, numberField.
  run_monad.
  repeat (cbv beta iota; rewrite ?Hdb, ?Huser, ?Hsel, ?Hf1, ?Hf2).
  simpl. rewrite Hup, Hold. reflexivity.
Qed.


(** X13: A save that the store rejects leaves the editor open: when the store
    is unreachable (or, for an update, the document no longer exists) the
    documents are as before, the error message of the handler is set, and
    the modal and the selected account are as they were; the one write
    call was issued. *)
Theorem save_rejected_by_store (s : st) (data : gmap string jsval)
  (uid : string) :
  dbReady (app s) = true →
  user (app s) = Some uid →
  dateConvertible fromDate (data !! "expectedCloseDate") →
  dateConvertible fromDate (data !! "nextFollowUpDate") →
  (storeUp (w s) = false →
   let s' := final (handleAddAccount fromDate data) s in
   docs (w s') = docs (w s)
   ∧ error (app s') = Some "Failed to add new account."
   ∧ showModal (app s') = showModal (app s)
   ∧ selectedAccount (app s') = selectedAccount (app s)
   ∧ length (writes (w s')) = S (length (writes (w s))))
  ∧ (∀ selected,
       selectedAccount (app s) = Some selected →
       storeUp (w s) = false
       ∨ docs (w s) !! (accountsPath (appId (app s)) uid, id selected) = None →
       let s' := final (handleUpdateAccount fromDate data) s in
       docs (w s') = docs (w s)
       ∧ error (app s') = Some "Failed to update account."
       ∧ showModal (app s') = showModal (app s)
       ∧ selectedAccount (app s') = Some selected
       ∧ length (writes (w s')) = S (length (writes (w s)))).
Proof.
  intros Hdb Huser Hd1 Hd2.
  destruct (dateField_run fromDate _ s Hd1) as [f1 Hf1].
  destruct (dateField_run fromDate _ s Hd2) as [f2 Hf2].
  split.
  - intros Hup.
    unfold handleAddAccount, collection, addDoc, issue, setShowModal,
      setSelectedAccount, setError.
    run_monad.
    repeat (cbv beta iota; rewrite ?Hdb, ?Huser, ?Hf1, ?Hf2).
    simpl. rewrite Hup. simpl. rewrite length_app. simpl.
    repeat split; lia.
  - intros selected Hsel Hfail.
    unfold handleUpdateAccount, doc, updateDoc, issue, setShowModal,
      setSelectedAccount, setError.
    run_monad.
    repeat (cbv beta iota; rewrite ?Hdb, ?Huser, ?Hsel, ?Hf1, ?Hf2).
    simpl.
    assert (Hlen : ∀ (l : list store_op) x, length (l ++ [x]) = S (length l)).
    { intros l x. rewrite length_app. simpl. lia. }
    destruct Hfail as [Hup|Hnone].
    + rewrite Hup. simpl. by rewrite Hlen.
    + rewrite Hnone. destruct (storeUp (w s)); simpl; by rewrite Hlen.
Qed.

End UpdateProperties.

Lemma save_rejected_by_store_witness :
  let s := editing_offline in
  (storeUp (w s) = false →
   let s' := final (handleAddAccount fromDate_demo stark_formData) s in
   docs (w s') = docs (w s)
   ∧ error (app s') = Some "Failed to add new account."
   ∧ showModal (app s') = showModal (app s)
   ∧ selectedAccount (app s') = selectedAccount (app s)
   ∧ length (writes (w s')) = S (length (writes (w s))))
  ∧ (∀ selected,
       selectedAccount (app s) = Some selected →
       storeUp (w s) = false
       ∨ docs (w s) !! (accountsPath (appId (app s)) "u1", id selected) = None →
       let s' := final (handleUpdateAccount fromDate_demo stark_formData) s in
       docs (w s') = docs (w s)
       ∧ error (app s') = Some "Failed to update account."
       ∧ showModal (app s') = showModal (app s)
       ∧ selectedAccount (app s') = Some selected
       ∧ length (writes (w s')) = S (length (writes (w s)))).
Proof.
  apply (save_rejected_by_store fromDate_demo editing_offline stark_formData
           "u1"); first [reflexivity | by vm_compute].
Defined.


(** ** Saving the form *)

Lemma recalculateDealScore_reply (data : gmap string jsval) (s : st) :
  is_str (data !! "stage") "Closed Won" = false →
  is_str (data !! "stage") "Closed Lost" = false →
  notes_walkable data →
  ∃ s', recalculateDealScore data s
        = (Ok (score_of_reply (gemini (w s))), s')
    ∧ app s' = app s
    ∧ docs (w s') = docs (w s)
    ∧ storeUp (w s') = storeUp (w s)
    ∧ writes (w s') = writes (w s)
    ∧ (gemini (w s) = NoApiKey →
       dictationStatus (form s')
       = "API key not found. Please check environment variables.").
Proof.
  intros Hwon Hlost (l & Hnotes & Hl).
  unfold recalculateDealScore, notesForPrompt, callGeminiAPI, console_error,
    setDictationStatus.
  rewrite Hwon, Hlost, Hnotes, Hl. run_monad. cbv beta iota.
  destruct (gemini (w s)) as [| |[t|]]; cbv beta iota;
    try (eexists; split; [reflexivity|]; by repeat split).
  unfold score_of_reply.
  destruct (String.eqb t ""); eexists; (split; [reflexivity|]);
    by repeat split.
Qed.

Lemma recalculateDealScore_bad_notes (data : gmap string jsval) (s : st) :
  is_str (data !! "stage") "Closed Won" = false →
  is_str (data !! "stage") "Closed Lost" = false →
  ¬ notes_walkable data →
  ∃ msg, recalculateDealScore data s = (Throw (TypeError msg), s).
Proof.
  intros Hwon Hlost Hbad.
  unfold recalculateDealScore, notesForPrompt.
  rewrite Hwon, Hlost. run_monad.
  destruct (data !! "notes") as [[| | | |l|]|] eqn:Hnotes; eauto.
  destruct (forallb _ l) eqn:Hl; [|eauto].
  exfalso. apply Hbad. by exists l.
Qed.

Section SaveProperties2.

Variable fromDate : jsval → option Z.

Lemma dateField_split (x : option jsval) (s : st) :
  ∃ r, dateField fromDate x s = (r, s).
Proof.
  pose proof (dateField_state fromDate x s) as E.
  destruct (dateField fromDate x s) as [r s1]. simpl in E. subst. eauto.
Qed.

Lemma handleUpdateAccount_form (data : gmap string jsval) (s : st) :
  form (final (handleUpdateAccount fromDate data) s) = form s.
Proof.
  unfold handleUpdateAccount, doc, updateDoc, issue, setShowModal,
    setSelectedAccount, setError.
  run_monad.
  destruct (dbReady (app s)) eqn:Hdb; [|done].
  destruct (user (app s)) as [uid|]; [|done].
  destruct (selectedAccount (app s)) as [selected|]; [|done].
  destruct (dateField_split (data !! "expectedCloseDate") s) as [r1 H1].
  destruct (dateField_split (data !! "nextFollowUpDate") s) as [r2 H2].
  repeat (cbv beta iota; rewrite ?Hdb, ?H1).
  destruct r1; [|done].
  repeat (cbv beta iota; rewrite ?H2).
  destruct r2; [|done].
  cbv beta iota. simpl.
  destruct (storeUp (w s)); [|done].
  by destruct (docs (w s) !! _).
Qed.

Lemma handleAddAccount_form (data : gmap string jsval) (s : st) :
  form (final (handleAddAccount fromDate data) s) = form s.
Proof.
  unfold handleAddAccount, collection, addDoc, issue, setShowModal,
    setSelectedAccount, setError.
  run_monad.
  destruct (dbReady (app s)) eqn:Hdb; [|done].
  destruct (user (app s)) as [uid|]; [|done].
  destruct (dateField_split (data !! "expectedCloseDate") s) as [r1 H1].
  destruct (dateField_split (data !! "nextFollowUpDate") s) as [r2 H2].
  repeat (cbv beta iota; rewrite ?Hdb, ?H1).
  destruct r1; [|done].
  repeat (cbv beta iota; rewrite ?H2).
  destruct r2; [|done].
  cbv beta iota. simpl.
  by destruct (storeUp (w s)).
Qed.

Lemma onSave_form (data : gmap string jsval) (s : st) :
  form (final (onSave fromDate data) s) = form s.
Proof.
  pose proof (handleUpdateAccount_form data s) as Hu.
  pose proof (handleAddAccount_form data s) as Ha.
  unfold onSave. run_monad. cbv beta iota.
  by destruct (selectedAccount (app s)).
Qed.

(** X14: A save never leaves the form in its saving state and never alters
    what the user typed: after [handleSave], whatever the endpoint and the
    store do and also when the save throws, [isAddingAccount] is false and
    the form data, the note field and the loading flag are as before (the
    'N/A' and the new score go to the store only). *)
Theorem handleSave_form_kept (s : st) :
  let s' := final (handleSave fromDate) s in
  isAddingAccount (form s') = false
  ∧ formData (form s') = formData (form s)
  ∧ newNote (form s') = newNote (form s)
  ∧ loadingAI (form s') = loadingAI (form s).
Proof.
  cbv zeta. rewrite handleSave_final. cbv zeta.
  set (s1 := on_form (with_isAddingAccount true) s).
  match goal with
  | |- context [recalculateDealScore ?d s1] => generalize d; intros data
  end.
  assert (Hrec : ∃ r s2, recalculateDealScore data s1 = (r, s2)
            ∧ formData (form s2) = formData (form s)
            ∧ newNote (form s2) = newNote (form s)
            ∧ loadingAI (form s2) = loadingAI (form s)).
  { unfold recalculateDealScore, notesForPrompt, callGeminiAPI,
      console_error, setDictationStatus.
    run_monad.
    repeat case_match; simplify_eq; eexists _, _;
      (split; [reflexivity|]); done. }
  destruct Hrec as (r & s2 & -> & Hfd & Hnote & Hload).
  destruct r as [n|e]; simpl; [|done].
  by rewrite onSave_form.
Qed.

(** X15: The score an update stores for a stage that is not terminal: when the
    save of an account being edited reaches the store, its one [updateDoc]
    and the stored document carry exactly [parseFloat] of the endpoint's
    text (fractions and out-of-range numbers included), and 50 when there
    is no API key, the call fails, the reply has no text or the text is
    empty; the save goes through in all these cases. Without an API key
    the status line is left at the 'API key not found' message. *)
Theorem handleSave_update_score (s : st) (uid : string) (selected : account)
  (old : gmap string fsval) :
  dbReady (app s) = true →
  user (app s) = Some uid →
  selectedAccount (app s) = Some selected →
  storeUp (w s) = true →
  docs (w s) !! (accountsPath (appId (app s)) uid, id selected) = Some old →
  dateConvertible fromDate (formData (form s) !! "expectedCloseDate") →
  dateConvertible fromDate (formData (form s) !! "nextFollowUpDate") →
  is_str (formData (form s) !! "stage") "Closed Won" = false →
  is_str (formData (form s) !! "stage") "Closed Lost" = false →
  notes_walkable (formData (form s)) →
  let s' := final (handleSave fromDate) s in
  let ref := (accountsPath (appId (app s)) uid, id selected) in
  ∃ payload stored,
    writes (w s') = writes (w s) ++ [UpdateDoc ref.1 ref.2 payload]
    ∧ has_score (score_of_reply (gemini (w s))) payload
    ∧ docs (w s') !! ref = Some stored
    ∧ has_score (score_of_reply (gemini (w s))) stored
    ∧ error (app s') = error (app s)
    ∧ showModal (app s') = false ∧ selectedAccount (app s') = None
    ∧ (gemini (w s) = NoApiKey →
       dictationStatus (form s')
       = "API key not found. Please check environment variables.").
Proof.
  intros Hdb Huser Hsel Hup Hold Hd1 Hd2 Hwon Hlost Hnotes.
  cbv zeta. rewrite handleSave_final. cbv zeta.
  set (s1 := on_form (with_isAddingAccount true) s).
  set (data := if is_str (formData (form s) !! "stage") "Business Intel"
                  && negb (truthy_opt (formData (form s) !! "servicesNeeded"))
               then <["servicesNeeded" := VStr "N/A"]> (formData (form s))
               else formData (form s)).
  assert (Hkey : ∀ k, k ≠ "servicesNeeded" →
                      data !! k = formData (form s) !! k).
  { intros k Hk. unfold data. destruct (_ && _); [|done].
    by rewrite lookup_insert_ne. }
  destruct (recalculateDealScore_reply data s1)
    as (s2 & -> & Happ & Hdocs & Hstore & Hwrites & Hstatus).
  { by rewrite Hkey. }
  { by rewrite Hkey. }
  { destruct Hnotes as (l & Hl & Hw). exists l. by rewrite Hkey. }
  set (n := score_of_reply (gemini (w s1))).
  assert (Hsave : ∀ k, k ≠ "dealScore" → k ≠ "servicesNeeded" →
            (<["dealScore" := VNum n]> data) !! k = formData (form s) !! k).
  { intros k Hk1 Hk2. by rewrite lookup_insert_ne, Hkey. }
  destruct (handleUpdateAccount_ok fromDate s2
              (<["dealScore" := VNum n]> data) uid selected old)
    as (f1 & f2 & _ & _ & Hrun).
  { by rewrite Happ. } { by rewrite Happ. } { by rewrite Happ. }
  { by rewrite Hsave. } { by rewrite Hsave. }
  { by rewrite Hstore. } { by rewrite Happ, Hdocs. }
  assert (Hsel2 : selectedAccount (app s2) = Some selected)
    by by rewrite Happ.
  assert (Hscore : has_score n
            (updatePayload (<["dealScore" := VNum n]> data) f1 f2)).
  { unfold has_score, updatePayload. field.
    by rewrite lookup_fmap, lookup_insert_eq. }
  unfold onSave, final. run_monad. cbv beta iota.
  rewrite Hsel2, Hrun. simpl. rewrite !Happ, Hwrites. simpl.
  eexists _, _. split; [done|]. split; [exact Hscore|].
  split; [apply lookup_insert_eq|].
  split; [by apply has_score_union|]. done.
Qed.

(** X16: A save whose notes are not an array of objects fails without a trace
    the user can see: for a stage that is not terminal [handleSave] throws
    a TypeError before the endpoint and the store are called, so that the
    submission writes nothing, sets no error and keeps the editor open;
    the host logs the uncaught exception. *)
Theorem handleSave_bad_notes (s : st) :
  is_str (formData (form s) !! "stage") "Closed Won" = false →
  is_str (formData (form s) !! "stage") "Closed Lost" = false →
  ¬ notes_walkable (formData (form s)) →
  let s' := final (host_async (handleSave fromDate)) s in
  (∃ msg, console (w s') = console (w s) ++ [Uncaught (TypeError msg)])
  ∧ writes (w s') = writes (w s) ∧ docs (w s') = docs (w s)
  ∧ app s' = app s
  ∧ isAddingAccount (form s') = false
  ∧ formData (form s') = formData (form s).
Proof.
  intros Hwon Hlost Hbad.
  set (data := if is_str (formData (form s) !! "stage") "Business Intel"
                  && negb (truthy_opt (formData (form s) !! "servicesNeeded"))
               then <["servicesNeeded" := VStr "N/A"]> (formData (form s))
               else formData (form s)).
  assert (Hkey : ∀ k, k ≠ "servicesNeeded" →
                      data !! k = formData (form s) !! k).
  { intros k Hk. unfold data. destruct (_ && _); [|done].
    by rewrite lookup_insert_ne. }
  destruct (recalculateDealScore_bad_notes data
              (on_form (with_isAddingAccount true) s)) as [msg Hthrow].
  { by rewrite Hkey. } { by rewrite Hkey. }
  { intros (l & Hl & Hw). apply Hbad. exists l. by rewrite <- Hkey. }
  unfold handleSave, setIsAddingAccount. run_monad. cbv beta iota. simpl.
  fold data. rewrite Hthrow. simpl. eauto 10.
Qed.

End SaveProperties2.

Lemma handleSave_update_score_witness :
  let s := editing_stark "72.5" in
  let s' := final (handleSave fromDate_demo) s in
  ∃ payload stored,
    writes (w s') = writes (w s) ++ [UpdateDoc demo_path "a6" payload]
    ∧ has_score (Dec 725 (-1)) payload
    ∧ docs (w s') !! (demo_path, "a6") = Some stored
    ∧ has_score (Dec 725 (-1)) stored
    ∧ error (app s') = None
    ∧ showModal (app s') = false ∧ selectedAccount (app s') = None
    ∧ (Responds (Some "72.5") = NoApiKey →
       dictationStatus (form s')
       = "API key not found. Please check environment variables.").
Proof.
  apply (handleSave_update_score fromDate_demo (editing_stark "72.5") "u1"
           lead_stark stark_doc);
    first [reflexivity | by vm_compute | by exists []].
Defined.

Lemma handleSave_bad_notes_witness :
  let s := saving_bad_notes in
  let s' := final (host_async (handleSave fromDate_demo)) s in
  (∃ msg, console (w s') = console (w s) ++ [Uncaught (TypeError msg)])
  ∧ writes (w s') = writes (w s) ∧ docs (w s') = docs (w s)
  ∧ app s' = app s
  ∧ isAddingAccount (form s') = false
  ∧ formData (form s') = formData (form s).
Proof.
  apply (handleSave_bad_notes fromDate_demo saving_bad_notes);
    try reflexivity.
  intros (l & Hl & _). vm_compute in Hl. discriminate Hl.
Defined.

(** ** Drafting with the endpoint *)

Lemma notesSummary_walkable (data : gmap string jsval) (s : st) :
  notes_walkable data → notesSummary (data !! "notes") s = (Ok tt, s).
Proof. intros (l & -> & Hl). unfold notesSummary. by rewrite Hl. Qed.

(** X17: Drafting an email never throws and never touches the store or the form
    data (the notes being an array of objects): the draft shown is the
    endpoint's text when it returns a non-empty one, and otherwise, without
    API key, on a failed call, without text or with an empty text, the
    fixed text 'Failed to generate email draft. Please try again.'.
    Afterwards the loading flag is off and the status line is empty, so the
    'API key not found' message that the call sets does not stay. *)
Theorem handleDraftEmail_outcome (s : st) :
  notes_walkable (formData (form s)) →
  ∃ s', handleDraftEmail s
        = (Ok (default "Failed to generate email draft. Please try again."
                 (reply_text (gemini (w s)))), s')
    ∧ loadingAI (form s') = false
    ∧ dictationStatus (form s') = ""
    ∧ formData (form s') = formData (form s)
    ∧ app s' = app s
    ∧ writes (w s') = writes (w s) ∧ docs (w s') = docs (w s).
Proof.
  intros Hnotes.
  unfold handleDraftEmail, callGeminiAPI, console_error, setLoadingAI,
    setDictationStatus.
  run_monad. cbv beta iota. simpl.
  rewrite (notesSummary_walkable _ _ Hnotes). cbv beta iota. simpl.
  destruct (gemini (w s)) as [| |[t|]]; cbv beta iota; simpl;
    try (eexists; split; [reflexivity|]; by repeat split).
  destruct (String.eqb t ""); eexists; (split; [reflexivity|]);
    by repeat split.
Qed.

(** X18: Generating an agenda behaves alike: it never throws, shows
    [marked.parse] of the endpoint's text when there is a non-empty one and
    otherwise the fixed text 'Failed to generate meeting agenda. Please try
    again.' (which is not passed through [marked.parse]), and ends with the
    loading flag off and the status line empty. *)
Theorem handleGenerateAgenda_outcome (marked_parse : string → string)
  (s : st) :
  notes_walkable (formData (form s)) →
  ∃ s', handleGenerateAgenda marked_parse s
        = (Ok (default "Failed to generate meeting agenda. Please try again."
                 (marked_parse <$> reply_text (gemini (w s)))), s')
    ∧ loadingAI (form s') = false
    ∧ dictationStatus (form s') = ""
    ∧ formData (form s') = formData (form s)
    ∧ app s' = app s
    ∧ writes (w s') = writes (w s) ∧ docs (w s') = docs (w s).
Proof.
  intros Hnotes.
  unfold handleGenerateAgenda, callGeminiAPI, console_error, setLoadingAI,
    setDictationStatus.
  run_monad. cbv beta iota. simpl.
  rewrite (notesSummary_walkable _ _ Hnotes). cbv beta iota. simpl.
  destruct (gemini (w s)) as [| |[t|]]; cbv beta iota; simpl;
    try (eexists; split; [reflexivity|]; by repeat split).
  destruct (String.eqb t ""); eexists; (split; [reflexivity|]);
    by repeat split.
Qed.

Lemma handleDraftEmail_outcome_witness :
  ∃ s', handleDraftEmail editing_lost
        = (Ok "Failed to generate email draft. Please try again.", s')
    ∧ loadingAI (form s') = false
    ∧ dictationStatus (form s') = ""
    ∧ formData (form s') = formData (form editing_lost)
    ∧ app s' = app editing_lost
    ∧ writes (w s') = writes (w editing_lost)
    ∧ docs (w s') = docs (w editing_lost).
Proof.
  apply (handleDraftEmail_outcome editing_lost). by exists [].
Defined.

Lemma handleGenerateAgenda_outcome_witness :
  ∃ s', handleGenerateAgenda (λ t, "<p>" +:+ t +:+ "</p>")
          (editing_stark "Agenda")
        = (Ok "<p>Agenda</p>", s')
    ∧ loadingAI (form s') = false
    ∧ dictationStatus (form s') = ""
    ∧ formData (form s') = formData (form (editing_stark "Agenda"))
    ∧ app s' = app (editing_stark "Agenda")
    ∧ writes (w s') = writes (w (editing_stark "Agenda"))
    ∧ docs (w s') = docs (w (editing_stark "Agenda")).
Proof.
  apply (handleGenerateAgenda_outcome (λ t, "<p>" +:+ t +:+ "</p>")
           (editing_stark "Agenda")).
  by exists [].
Defined.

(** ** Merging a reply of the endpoint into the form *)

Lemma obj_last_snoc (k k0 : string) (v0 : jsval) (o : list (string * jsval)) :
  obj_last k (o ++ [(k0, v0)])
  = if String.eqb k0 k then Some v0 else obj_last k o.
Proof. unfold obj_last. by rewrite foldl_snoc. Qed.

Lemma spread_into_obj (o : list (string * jsval)) (m : gmap string jsval)
  (k : string) :
  spread_into (VObj o) m !! k
  = match obj_last k o with Some v => Some v | None => m !! k end.
Proof.
  unfold spread_into. simpl.
  induction o as [|[k0 v0] o IH] using rev_ind; [done|].
  rewrite foldl_snoc, obj_last_snoc. simpl.
  destruct (String.eqb_spec k0 k) as [->|Hne].
  - apply lookup_insert_eq.
  - by rewrite lookup_insert_ne.
Qed.

Section MergeProperties.

Variable JSON_parse : string → option jsval.

(** X19: A card scan whose reply parses to an object sets each of the five
    contact fields to the reply's value for it, or to the empty string when
    the reply has no value for it (absent, null, empty): what the form held
    in these fields does not survive. Every other key of the reply is taken
    over as it is, and the fields the reply does not name are kept. The
    loading flag and the status line are reset, and nothing is logged or
    written. *)
Theorem scan_merges_reply (s : st) (mime t : string)
  (o : list (string * jsval)) :
  gemini (w s) = Responds (Some t) →
  t ≠ "" →
  JSON_parse (remove_fences 0 t) = Some (VObj o) →
  let s' := final (handleScanBusinessCard JSON_parse (Some mime)) s in
  (∀ k, formData (form s') !! k
        = if decide (k ∈ contactKeys) then Some (or_empty (obj_last k o))
          else match obj_last k o with
               | Some v => Some v
               | None => formData (form s) !! k
               end)
  ∧ loadingAI (form s') = false
  ∧ dictationStatus (form s') = ""
  ∧ console (w s') = console (w s)
  ∧ writes (w s') = writes (w s) ∧ docs (w s') = docs (w s)
  ∧ app s' = app s.
Proof.
  intros Hreply Ht Hparse. apply String.eqb_neq in Ht.
  unfold handleScanBusinessCard, reader_onload, callGeminiAPI, console_error,
    setLoadingAI, setDictationStatus, setFormData, get_prop.
  run_monad. cbv beta iota. simpl. rewrite Hreply. cbv beta iota.
  rewrite Ht, Hparse. simpl. split; [|done].
  intros k. fold (obj_last "companyName" o) (obj_last "contactTitle" o)
    (obj_last "contactPhone" o) (obj_last "contactEmail" o)
    (obj_last "contactName" o).
  destruct (decide (k ∈ contactKeys)) as [Hin|Hnin].
  - unfold contactKeys in Hin.
    repeat (apply elem_of_cons in Hin as [->|Hin]; [by field|]).
    by inversion Hin.
  - rewrite !lookup_insert_ne, spread_into_obj; [done|..];
      intros <-; apply Hnin; unfold contactKeys; repeat constructor.
Qed.

(** X20: A card scan that gets no text from the endpoint (no API key, a failed
    call, a reply without text or with an empty one) leaves the form data
    as it was, logs 'AI extraction failed: No text in response.' as the
    last console entry, resets the loading flag and the status line and
    writes nothing; a change event without a file does nothing at all. *)
Theorem scan_without_text (s : st) (mime : string) :
  handleScanBusinessCard JSON_parse None s = (Ok tt, s)
  ∧ (reply_text (gemini (w s)) = None →
     let s' := final (handleScanBusinessCard JSON_parse (Some mime)) s in
     formData (form s') = formData (form s)
     ∧ (∃ before,
          console (w s')
          = before
            ++ [ConsoleError "AI extraction failed: No text in response."])
     ∧ loadingAI (form s') = false
     ∧ dictationStatus (form s') = ""
     ∧ writes (w s') = writes (w s) ∧ docs (w s') = docs (w s)
     ∧ app s' = app s).
Proof.
  split; [done|]. intros Hnone.
  unfold handleScanBusinessCard, reader_onload, callGeminiAPI, console_error,
    setLoadingAI, setDictationStatus, setFormData.
  run_monad. cbv beta iota. simpl.
  destruct (gemini (w s)) as [| |[t|]]; cbv beta iota; simpl in *;
    try (by eauto 10).
  destruct (String.eqb t ""); [|done]. simpl. by eauto 10.
Qed.


(** X22: A dictation whose reply parses to an object copies every key of the
    reply into the form as it is, a null included: a field for which the
    endpoint found nothing and answered null loses what the user had
    typed. Only value and monthlyValue are set to the empty string when
    the reply has no value for them. Fields the reply does not name are
    kept. *)
Theorem recognition_onend_merges (s : st) (finalTranscript t : string)
  (o : list (string * jsval)) :
  trim finalTranscript ≠ "" →
  gemini (w s) = Responds (Some t) →
  t ≠ "" →
  JSON_parse t = Some (VObj o) →
  let s' := final (recognition_onend JSON_parse finalTranscript) s in
  (∀ k, formData (form s') !! k
        = if decide (k ∈ ["value"; "monthlyValue"])
          then Some (or_empty (obj_last k o))
          else match obj_last k o with
               | Some v => Some v
               | None => formData (form s) !! k
               end)
  ∧ (∀ k, k ∉ ["value"; "monthlyValue"] → obj_last k o = Some VNull →
          formData (form s') !! k = Some VNull)
  ∧ loadingAI (form s') = false
  ∧ dictationStatus (form s') = ""
  ∧ console (w s') = console (w s)
  ∧ writes (w s') = writes (w s) ∧ docs (w s') = docs (w s).
Proof.
  intros Hft Hreply Ht Hparse.
  apply String.eqb_neq in Hft. apply String.eqb_neq in Ht.
  assert (Hall : ∀ k,
    formData (form (final (recognition_onend JSON_parse finalTranscript) s))
      !! k
    = if decide (k ∈ ["value"; "monthlyValue"])
      then Some (or_empty (obj_last k o))
      else match obj_last k o with
           | Some v => Some v
           | None => formData (form s) !! k
           end).
  { intros k.
    unfold recognition_onend, callGeminiAPI, console_error, setLoadingAI,
      setDictationStatus, setFormData, get_prop.
    rewrite Hft. run_monad. cbv beta iota. simpl. rewrite Hreply.
    cbv beta iota. rewrite Ht, Hparse. simpl.
    fold (obj_last "value" o) (obj_last "monthlyValue" o).
    destruct (decide (k ∈ ["value"; "monthlyValue"])) as [Hin|Hnin].
    - repeat (apply elem_of_cons in Hin as [->|Hin]; [by field|]).
      by inversion Hin.
    - rewrite !lookup_insert_ne, spread_into_obj; [done|..];
        intros <-; apply Hnin; repeat constructor. }
  cbv zeta. split; [exact Hall|]. split.
  { intros k Hk Hnull. by rewrite Hall, decide_False, Hnull. }
  unfold recognition_onend, callGeminiAPI, console_error, setLoadingAI,
    setDictationStatus, setFormData, get_prop.
  rewrite Hft. run_monad. cbv beta iota. simpl. rewrite Hreply.
  cbv beta iota. rewrite Ht, Hparse. done.
Qed.

End MergeProperties.

Lemma scan_merges_reply_witness :
  let s := scanning_card card_reply in
  let o := [("companyName", VStr "Umbrella"); ("stage", VStr "Archived")] in
  let s' := final (handleScanBusinessCard JSON_parse_card (Some "image/png"))
              s in
  (∀ k, formData (form s') !! k
        = if decide (k ∈ contactKeys) then Some (or_empty (obj_last k o))
          else match obj_last k o with
               | Some v => Some v
               | None => formData (form s) !! k
               end)
  ∧ loadingAI (form s') = false
  ∧ dictationStatus (form s') = ""
  ∧ console (w s') = console (w s)
  ∧ writes (w s') = writes (w s) ∧ docs (w s') = docs (w s)
  ∧ app s' = app s.
Proof.
  apply (scan_merges_reply JSON_parse_card (scanning_card card_reply)
           "image/png" card_reply);
    first [reflexivity | by vm_compute].
Defined.


Lemma recognition_onend_merges_witness :
  let s := dictating dictation_reply in
  let o := [("companyName", VNull); ("contactName", VStr "Ada");
            ("value", VNum (Dec 4000 0)); ("monthlyValue", VNull)] in
  let s' := final (recognition_onend JSON_parse_dictation
                     "Ada wants the four thousand package") s in
  (∀ k, formData (form s') !! k
        = if decide (k ∈ ["value"; "monthlyValue"])
          then Some (or_empty (obj_last k o))
          else match obj_last k o with
               | Some v => Some v
               | None => formData (form s) !! k
               end)
  ∧ (∀ k, k ∉ ["value"; "monthlyValue"] → obj_last k o = Some VNull →
          formData (form s') !! k = Some VNull)
  ∧ loadingAI (form s') = false
  ∧ dictationStatus (form s') = ""
  ∧ console (w s') = console (w s)
  ∧ writes (w s') = writes (w s) ∧ docs (w s') = docs (w s).
Proof.
  apply (recognition_onend_merges JSON_parse_dictation
           (dictating dictation_reply)
           "Ada wants the four thousand package" dictation_reply);
    first [reflexivity | by vm_compute].
Defined.

(** The company name typed in the form is lost to the null of the reply,
    and the monthly value to the empty string. *)
Example dictation_erases_fields :
  let s' := final (recognition_onend JSON_parse_dictation
                     "Ada wants the four thousand package")
              (dictating dictation_reply) in
  stark_formData !! "companyName" = Some (VStr "Stark")
  ∧ formData (form s') !! "companyName" = Some VNull
  ∧ stark_formData !! "monthlyValue" = Some (VStr "300")
  ∧ formData (form s') !! "monthlyValue" = Some (VStr "")
  ∧ formData (form s') !! "value" = Some (VNum (Dec 4000 0))
  ∧ formData (form s') !! "stage" = Some (VStr "Negotiation").
Proof. vm_compute. repeat split. Qed.

(** ** The recognition results *)

(** Interim results never enter the final transcript: after an [onresult]
    event the final transcript is the previous one followed by the
    transcripts of the final results from [resultIndex] on, in order, and
    the text shown live is this followed by the interim transcripts. *)
Theorem onresult_loop_final (finalTranscript : string) (resultIndex : nat)
  (results : list recognition_result) :
  let new := drop resultIndex results in
  (onresult_loop finalTranscript resultIndex results).1
  = foldl (λ acc r, acc +:+ transcript r) finalTranscript
      (filter (λ r, isFinal r = true) new)
  ∧ (onresult_loop finalTranscript resultIndex results).2
    = foldl (λ acc r, acc +:+ transcript r) ""
        (filter (λ r, isFinal r = false) new).
Proof.
  unfold onresult_loop. cbv zeta.
  generalize (drop resultIndex results) finalTranscript "".
  induction l as [|r l IH]; intros ft it; [done|].
  simpl. rewrite !filter_cons.
  destruct (isFinal r); simpl; apply IH.
Qed.

(** ** The initial form data and the validation *)

Lemma forallb_false_elem {A : Type} (f : A → bool) (l : list A) (x : A) :
  x ∈ l → f x = false → forallb f l = false.
Proof.
  intros Hin Hf. induction l as [|y l IH]; [by inversion Hin|].
  simpl. apply elem_of_cons in Hin as [<-|Hin].
  - by rewrite Hf.
  - rewrite IH by done. apply andb_false_r.
Qed.

Section EditorProperties.

Variable fromDate : jsval → option Z.
Variable typeMismatch : input_type → option jsval → bool.
Variable keptEmpty : string → bool.
Variable isoDate : Z → string.

(** X23: An account whose stored value (or monthly value) is 0 or absent opens
    with that required field empty, so that the editor cannot save it until
    a number is typed again: a submission of the form as opened does
    nothing. The form opened for a new account is blocked likewise. *)
Theorem zero_amount_blocks_submit (s : st)
  (account : option account_details) :
  formData (form s) = initialFormData isoDate account →
  match account with
  | Some a => value (summary a) = None ∨ value (summary a) = Some (Dec 0 0)
              ∨ monthlyValue a = None ∨ monthlyValue a = Some (Dec 0 0)
  | None => True
  end →
  clickSubmit fromDate typeMismatch keptEmpty s = (Ok tt, s).
Proof.
  intros Hfd Hzero.
  assert (Hempty : formData (form s) !! "value" = Some (VStr "")
                   ∨ formData (form s) !! "monthlyValue" = Some (VStr "")).
  { rewrite Hfd. unfold initialFormData. cbv zeta.
    destruct account as [a|]; simpl.
    - destruct Hzero as [H|[H|[H|H]]]; [left|left|right|right];
        field; by rewrite H.
    - left. by field. }
  unfold clickSubmit. run_monad.
  destruct (isAddingAccount (form s)); [done|].
  destruct Hempty as [Hv|Hv].
  - rewrite (forallb_false_elem _ _
               {| cname := "value"; ctype := TNumber; required := true |});
      [done|..].
    + unfold rendered_controls. apply elem_of_app. left. repeat constructor.
    + unfold control_valid. simpl. by rewrite Hv.
  - rewrite (forallb_false_elem _ _
               {| cname := "monthlyValue"; ctype := TNumber;
                  required := true |}); [done|..].
    + unfold rendered_controls. apply elem_of_app. left. repeat constructor.
    + unfold control_valid. simpl. by rewrite Hv.
Qed.

End EditorProperties.

Lemma zero_amount_blocks_submit_witness :
  clickSubmit fromDate_demo typeMismatch_demo kept_blank editing_free_trial
  = (Ok tt, editing_free_trial).
Proof.
  apply (zero_amount_blocks_submit fromDate_demo typeMismatch_demo kept_blank
           isoDate_demo editing_free_trial (Some free_trial)).
  - reflexivity.
  - right. left. reflexivity.
Defined.

(** ** The fences around a reply *)

Lemma no_fence_at (c : ascii) (rest : string) :
  Ascii.eqb c "096"%char = false →
  (∀ c' rest', rest = String c' rest' → Ascii.eqb c' "096"%char = false) →
  strip_prefix fence_open (String c rest) = None
  ∧ strip_prefix fence_close (String c rest) = None.
Proof.
  intros Hc Hrest. split.
  - change (strip_prefix fence_open (String c rest))
      with (if Ascii.eqb "096"%char c
            then strip_prefix ("``json" +:+ String LF "") rest else None).
    rewrite Ascii.eqb_sym. by rewrite Hc.
  - change (strip_prefix fence_close (String c rest))
      with (if Ascii.eqb LF c then strip_prefix "```" rest else None).
    destruct (Ascii.eqb LF c); [|done].
    destruct rest as [|c' rest']; [done|].
    change (strip_prefix "```" (String c' rest'))
      with (if Ascii.eqb "096"%char c'
            then strip_prefix "``" rest' else None).
    rewrite Ascii.eqb_sym. by rewrite (Hrest c' rest' eq_refl).
Qed.

Lemma remove_fences_no_backquote (s : string) :
  has_backquote s = false → remove_fences 0 s = s.
Proof.
  induction s as [|c s IH]; [done|]. intros Hs.
  simpl in Hs. apply orb_false_iff in Hs as [Hc Hs].
  destruct (no_fence_at c s Hc) as [H1 H2].
  { intros c' rest' ->. simpl in Hs. by apply orb_false_iff in Hs as [? _]. }
  change (remove_fences 0 (String c s))
    with (match strip_prefix fence_open (String c s),
                strip_prefix fence_close (String c s) with
          | Some _, _ => remove_fences 7 s
          | None, Some _ => remove_fences 3 s
          | None, None => String c (remove_fences 0 s)
          end).
  rewrite H1, H2. by rewrite IH.
Qed.

Lemma remove_fences_closing (body : string) :
  has_backquote body = false →
  remove_fences 0 (body +:+ fence_close) = body.
Proof.
  induction body as [|c body IH]; [done|]. intros Hs.
  simpl in Hs. apply orb_false_iff in Hs as [Hc Hs].
  destruct (no_fence_at c (body +:+ fence_close) Hc) as [H1 H2].
  { intros c' rest'. destruct body as [|c0 body]; simpl.
    - by intros [= <- _].
    - intros [= <- _]. simpl in Hs. by apply orb_false_iff in Hs as [? _]. }
  change (remove_fences 0 (String c body +:+ fence_close))
    with (match strip_prefix fence_open (String c (body +:+ fence_close)),
                strip_prefix fence_close (String c (body +:+ fence_close)) with
          | Some _, _ => remove_fences 7 (body +:+ fence_close)
          | None, Some _ => remove_fences 3 (body +:+ fence_close)
          | None, None => String c (remove_fences 0 (body +:+ fence_close))
          end).
  rewrite H1, H2. by rewrite IH.
Qed.

(** X24: What the pattern of the card scan removes: a reply wrapped in an
    opening fence line and a closing fence is reduced to its body, and a
    reply without fences is handed to the parser as it is (the body, or the
    reply, holding no backquote). *)
Theorem remove_fences_unwraps (body : string) :
  has_backquote body = false →
  remove_fences 0 (fence_open +:+ body +:+ fence_close) = body
  ∧ remove_fences 0 body = body.
Proof.
  intros Hbody. split.
  - change (remove_fences 0 (fence_open +:+ body +:+ fence_close))
      with (remove_fences 0 (body +:+ fence_close)).
    by apply remove_fences_closing.
  - by apply remove_fences_no_backquote.
Qed.

Lemma remove_fences_unwraps_witness :
  remove_fences 0 (fence_open +:+ card_reply +:+ fence_close) = card_reply
  ∧ remove_fences 0 card_reply = card_reply.
Proof. apply (remove_fences_unwraps card_reply). reflexivity. Defined.

(** ** The dragged item *)

(** X25: A drop consumes the drag: after a drag start and a drop that the store
    accepts, the dragged item is cleared, so that a further drop without a
    new drag start does nothing; the three events issue one [updateDoc],
    for the first target stage. *)
Theorem drop_consumes_drag (s : st) (item : account) (uid : string)
  (stage1 stage2 : string) (old : gmap string fsval) :
  user (app s) = Some uid →
  dbReady (app s) = true →
  storeUp (w s) = true →
  docs (w s) !! (accountsPath (appId (app s)) uid, id item) = Some old →
  let s1 := final (handleDragEnd stage1) (final (handleDragStart item) s) in
  dragItem (app s1) = None
  ∧ handleDragEnd stage2 s1 = (Ok tt, s1)
  ∧ writes (w s1)
    = writes (w s)
      ++ [UpdateDoc (accountsPath (appId (app s)) uid) (id item)
            {[ "stage" := FData (VStr stage1) ]}].
Proof.
  intros Huser Hdb Hup Hold.
  unfold handleDragStart, handleDragEnd, doc, updateDoc, issue, setDragItem,
    setError.
  run_monad.
  repeat (cbv beta iota; simpl; rewrite ?Huser, ?Hdb, ?Hup, ?Hold).
  done.
Qed.

Lemma drop_consumes_drag_witness :
  let s := dragging_acme in
  let s1 := final (handleDragEnd "Proposal Sent")
              (final (handleDragStart lead_acme) s) in
  dragItem (app s1) = None
  ∧ handleDragEnd "Closed Won" s1 = (Ok tt, s1)
  ∧ writes (w s1)
    = writes (w s)
      ++ [UpdateDoc (accountsPath (appId (app s)) "u1") (id lead_acme)
            {[ "stage" := FData (VStr "Proposal Sent") ]}].
Proof.
  apply (drop_consumes_drag dragging_acme lead_acme "u1" "Proposal Sent"
           "Closed Won" acme_doc); reflexivity.
Defined.

